(** * A shallow embedding of the menu service of [src/server.js]

    The source file holds two successive versions of the same Express
    application; the second one (lines 125-250: seed ids 1..8, max-id+1
    id assignment, structured validation errors) is the one modelled in
    full, with its request dispatch; the validation rules, POST and PUT of
    the first one (lines 1-124) are modelled in module [V1].

    Data model: JSON values as parsed by [express.json()], with numbers
    kept as exact decimals [m * 10^e] (the fractional JSON literals of the
    program, such as prices, are decimals); JS objects as association
    lists in property insertion order; the store [menuItems] as a list of
    objects threaded through every route handler explicitly. *)

From Stdlib Require Import ZArith QArith String Ascii List Bool Lia.
From Stdlib Require Import Numbers.DecimalString Lqa.
Import ListNotations.
Open Scope Z_scope.
Open Scope string_scope.
Set Warnings "-register-all".

(** ** JS numbers and values *)

(** A JS number: a finite decimal [m * 10^e], or NaN. *)
Inductive num : Type :=
| Fin (m e : Z)
| NaN.

Inductive value : Type :=
| VNull
| VBool (b : bool)
| VNum (n : num)
| VStr (s : string)
| VArr (l : list value)
| VObj (o : list (string * value)).

Definition obj := list (string * value).

Definition vint (z : Z) : value := VNum (Fin z 0).

(** The exact rational denoted by a finite decimal. *)
Definition q_of (m e : Z) : Q :=
  if (0 <=? e)%Z then inject_Z (m * 10 ^ e) else Qmake m (Z.to_pos (10 ^ (- e))).

(** [a === b] on numbers: NaN equals nothing. *)
Definition num_eqb (a b : num) : bool :=
  match a, b with
  | Fin m1 e1, Fin m2 e2 => Qeq_bool (q_of m1 e1) (q_of m2 e2)
  | _, _ => false
  end.

(** [n + 1] *)
Definition num_add1 (n : num) : num :=
  match n with
  | Fin m e => if (0 <=? e)%Z then Fin (m * 10 ^ e + 1) 0 else Fin (m + 10 ^ (- e)) e
  | NaN => NaN
  end.

(** ** Objects: property lookup, assignment and spread *)

(** [o[k]]; [None] is [undefined]. *)
Fixpoint get (o : obj) (k : string) : option value :=
  match o with
  | [] => None
  | (k', v) :: r => if String.eqb k k' then Some v else get r k
  end.

(** [o[k] = v]: an existing property keeps its position, a new one is appended. *)
Fixpoint set (o : obj) (k : string) (v : value) : obj :=
  match o with
  | [] => [(k, v)]
  | (k', v') :: r => if String.eqb k k' then (k', v) :: r else (k', v') :: set r k v
  end.

(** [{...target, ...src}]: the own properties of [src] assigned in order. *)
Definition spread (target src : obj) : obj :=
  fold_left (fun acc kv => set acc (fst kv) (snd kv)) src target.

(** ** Strings *)

Definition is_ws (c : ascii) : bool :=
  let n := nat_of_ascii c in
  Nat.eqb n 32 || Nat.eqb n 9 || Nat.eqb n 10 || Nat.eqb n 11 || Nat.eqb n 12 || Nat.eqb n 13.

Fixpoint ltrim_l (l : list ascii) : list ascii :=
  match l with
  | c :: r => if is_ws c then ltrim_l r else l
  | [] => []
  end.

(** validator.js [trim]: leading and trailing whitespace removed. *)
Definition trim (s : string) : string :=
  string_of_list_ascii (rev (ltrim_l (rev (ltrim_l (list_ascii_of_string s))))).

(** validator.js [escape]. *)
Definition escape_char (c : ascii) : string :=
  match nat_of_ascii c with
  | 38%nat => "&amp;"
  | 34%nat => "&quot;"
  | 39%nat => "&#x27;"
  | 60%nat => "&lt;"
  | 62%nat => "&gt;"
  | 47%nat => "&#x2F;"
  | 92%nat => "&#x5C;"
  | 96%nat => "&#96;"
  | _ => String c EmptyString
  end.

Fixpoint escape (s : string) : string :=
  match s with
  | EmptyString => EmptyString
  | String c r => escape_char c ++ escape r
  end.

Definition Z_to_string (z : Z) : string := NilEmpty.string_of_int (Z.to_int z).

Fixpoint zeros (n : nat) : string :=
  match n with O => "" | S k => "0" ++ zeros k end.

(** Removes trailing decimal zeros of the mantissa. *)
Fixpoint normalize (fuel : nat) (m e : Z) : Z * Z :=
  match fuel with
  | O => (m, e)
  | S f =>
      if (m =? 0)%Z then (0%Z, 0%Z)
      else if (Z.rem m 10 =? 0)%Z then normalize f (Z.quot m 10) (e + 1) else (m, e)
  end.

(** [String(n)] for a finite decimal (positional notation). *)
Definition num_to_string (n : num) : string :=
  match n with
  | NaN => "NaN"
  | Fin m0 e0 =>
      let '(m, e) := normalize (Z.to_nat (Z.log2_up (Z.abs m0) + 1)) m0 e0 in
      if (0 <=? e)%Z then Z_to_string (m * 10 ^ e)
      else
        let ds := Z_to_string (Z.abs m) in
        let k := Z.to_nat (- e) in
        let sign := if (m <? 0)%Z then "-" else "" in
        if Nat.ltb k (String.length ds) then
          sign ++ substring 0 (String.length ds - k) ds ++ "." ++
            substring (String.length ds - k) k ds
        else sign ++ "0." ++ zeros (k - String.length ds) ++ ds
  end.

(** [String(x)] as used by [Array.prototype.join]. *)
Fixpoint js_string (v : value) : string :=
  match v with
  | VNull => "null"
  | VBool b => if b then "true" else "false"
  | VNum n => num_to_string n
  | VStr s => s
  | VArr l =>
      (fix join (l : list value) : string :=
         match l with
         | [] => ""
         | [x] => match x with VNull => "" | _ => js_string x end
         | x :: r => match x with VNull => "" | _ => js_string x end ++ "," ++ join r
         end) l
  | VObj _ => "[object Object]"
  end.

(** express-validator's [toString]: [undefined], [null] and NaN give the
    empty string. *)
Definition ev_to_string (v : option value) : string :=
  match v with
  | None | Some VNull | Some (VNum NaN) => ""
  | Some x => js_string x
  end.

(** ** Number parsing *)

Definition digit_of (c : ascii) : option Z :=
  let n := nat_of_ascii c in
  if Nat.leb 48 n && Nat.leb n 57 then Some (Z.of_nat n - 48) else None.

(** The maximal prefix of decimal digits, as (value, count, rest). *)
Fixpoint digits_acc (acc : Z) (cnt : nat) (l : list ascii) : Z * nat * list ascii :=
  match l with
  | c :: r =>
      match digit_of c with
      | Some d => digits_acc (acc * 10 + d) (S cnt) r
      | None => (acc, cnt, l)
      end
  | [] => (acc, cnt, l)
  end.

Definition sign (l : list ascii) : Z * list ascii :=
  match l with
  | c :: r =>
      if Ascii.eqb c "-"%char then (-1, r)
      else if Ascii.eqb c "+"%char then (1, r) else (1, l)
  | [] => (1, l)
  end.

Definition exponent (l : list ascii) : option Z :=
  match l with
  | [] => Some 0
  | c :: r =>
      if Ascii.eqb c "e"%char || Ascii.eqb c "E"%char then
        let '(sg, r1) := sign r in
        match digits_acc 0 0 r1 with
        | (v, S _, []) => Some (sg * v)
        | _ => None
        end
      else None
  end.

(** Whole-string decimal syntax [sign? digits? (. digits?)? ([eE] sign? digits)?]:
    [Some (has_digits, m, e)] for the value [m * 10^e]. *)
Definition parse_decimal (l : list ascii) : option (bool * Z * Z) :=
  let '(sg, l1) := sign l in
  let '(a, na, l2) := digits_acc 0 0 l1 in
  let '(b, nb, l3) :=
    match l2 with
    | c :: r => if Ascii.eqb c "."%char then digits_acc a 0 r else (a, O, l2)
    | [] => (a, O, l2)
    end in
  match exponent l3 with
  | Some x => Some (negb (Nat.eqb (na + nb) 0), sg * b, x - Z.of_nat nb)
  | None => None
  end.

(** [parseInt(s, 10)]. *)
Definition parse_int (s : string) : num :=
  let '(sg, l1) := sign (ltrim_l (list_ascii_of_string s)) in
  match digits_acc 0 0 l1 with
  | (_, O, _) => NaN
  | (v, _, _) => Fin (sg * v) 0
  end.

(** [Number(s)] for a string (decimal literals; [Infinity] and the
    hexadecimal, octal and binary forms are not modelled and give NaN). *)
Definition string_to_number (s : string) : num :=
  let t := trim s in
  if String.eqb t "" then Fin 0 0
  else match parse_decimal (list_ascii_of_string t) with
       | Some (true, m, e) => Fin m e
       | _ => NaN
       end.

(** [Number(v)] (ToNumber); [None] is [undefined]. *)
Definition to_number (v : option value) : num :=
  match v with
  | None => NaN
  | Some VNull => Fin 0 0
  | Some (VBool b) => Fin (if b then 1 else 0) 0
  | Some (VNum n) => n
  | Some (VStr s) => string_to_number s
  | Some (VArr _ as a) => string_to_number (js_string a)
  | Some (VObj _) => NaN
  end.

Definition num_ltb (a b : num) : bool :=
  match a, b with
  | Fin m1 e1, Fin m2 e2 => negb (Qle_bool (q_of m2 e2) (q_of m1 e1))
  | _, _ => false
  end.

Definition is_nan (n : num) : bool := match n with NaN => true | _ => false end.

(** [Math.max(x, ...l)]: every argument is converted, any NaN gives NaN,
    otherwise the first largest value. *)
Definition math_max (x : option value) (l : list (option value)) : num :=
  let ns := map to_number l in
  let n0 := to_number x in
  if is_nan n0 || existsb is_nan ns then NaN
  else fold_left (fun acc n => if num_ltb acc n then n else acc) ns n0.

(** ** express-validator *)

(** A context item of a validation chain.  Standard sanitizers and
    validators work on the string form of the value, item by item when the
    value is an array; custom validators see the value itself. *)
Inductive item : Type :=
| Sanitizer (f : string -> string)
| Standard (p : string -> bool) (msg : string)
| Custom (p : option value -> bool) (msg : string).

(** [body(field)...] with [optional()] when [optional] is true. *)
Record chain : Type := { field : string; optional : bool; items : list item }.

(** A field error: [err.path] and [err.msg]. *)
Record verror : Type := { path : string; msg : string }.

Definition run_item (f : string) (st : option value * list verror) (it : item)
  : option value * list verror :=
  let '(v, errs) := st in
  match it with
  | Sanitizer san =>
      (Some match v with
            | Some (VArr l) => VArr (map (fun x => VStr (san (ev_to_string (Some x)))) l)
            | _ => VStr (san (ev_to_string v))
            end, errs)
  | Standard p m =>
      let vs := match v with Some (VArr l) => map Some l | _ => [v] end in
      (v, app errs (map (fun _ => {| path := f; msg := m |})
                      (filter (fun x => negb (p (ev_to_string x))) vs)))
  | Custom p m => (v, if p v then errs else app errs [{| path := f; msg := m |}])
  end.

(** The items of a chain run on the field's value; an optional chain is
    skipped when the value is [undefined]. *)
Definition run_items (c : chain) (v0 : option value) : option value * list verror :=
  match v0 with
  | None => if optional c then (v0, []) else fold_left (run_item (field c)) (items c) (v0, [])
  | Some _ => fold_left (run_item (field c)) (items c) (v0, [])
  end.

(** Runs one chain on the request body; the sanitized value is written back. *)
Definition run_chain (body : obj) (c : chain) : obj * list verror :=
  let '(v, errs) := run_items c (get body (field c)) in
  (match v with Some x => set body (field c) x | None => body end, errs).

(** The chains of an array of middlewares, run in order; all errors kept. *)
Definition validate (chains : list chain) (body : obj) : obj * list verror :=
  fold_left (fun st c => let '(b, es) := st in
                         let '(b', e) := run_chain b c in (b', app es e))
            chains (body, []).

Definition is_string (v : option value) : bool :=
  match v with Some (VStr _) => true | _ => false end.

(** validator.js [isLength({ min })] (ASCII strings: one unit per char). *)
Definition is_length_min (n : nat) (s : string) : bool := Nat.leb n (String.length s).

(** validator.js [isFloat({ gt: 0 })]. *)
Definition is_float_gt0 (s : string) : bool :=
  negb (existsb (String.eqb s) [""; "."; ","; "-"; "+"]) &&
  match parse_decimal (list_ascii_of_string s) with
  | Some (true, m, _) => (0 <? m)%Z
  | _ => false
  end.

Definition is_in (opts : list string) (s : string) : bool := existsb (String.eqb s) opts.

(** [isArray({ min: 1 })] *)
Definition is_array_min1 (v : option value) : bool :=
  match v with Some (VArr (_ :: _)) => true | _ => false end.

(** validator.js [isBoolean] (strict). *)
Definition is_boolean (s : string) : bool := is_in ["true"; "false"; "1"; "0"] s.

Definition invalid_value : string := "Invalid value".

(** [menuValidation] (lines 175-182); [withMessage] names the message of
    the last validator before it, [isString] keeps the default one. *)
Definition name_rule : chain :=
  {| field := "name"; optional := false;
     items := [Sanitizer trim; Custom is_string invalid_value;
               Standard (is_length_min 3) "Name must be at least 3 characters";
               Sanitizer escape] |}.

Definition description_rule : chain :=
  {| field := "description"; optional := false;
     items := [Sanitizer trim; Custom is_string invalid_value;
               Standard (is_length_min 10) "Description must be at least 10 characters";
               Sanitizer escape] |}.

Definition price_rule : chain :=
  {| field := "price"; optional := false;
     items := [Standard is_float_gt0 "Price must be a positive number"] |}.

Definition category_rule : chain :=
  {| field := "category"; optional := false;
     items := [Standard (is_in ["appetizer"; "entree"; "dessert"; "beverage"])
                 "Invalid category"] |}.

Definition ingredients_rule : chain :=
  {| field := "ingredients"; optional := false;
     items := [Custom is_array_min1 "At least one ingredient is required"] |}.

Definition available_rule : chain :=
  {| field := "available"; optional := true;
     items := [Standard is_boolean "Available must be true or false"] |}.

Definition menuValidation : list chain :=
  [name_rule; description_rule; price_rule; category_rule; ingredients_rule; available_rule].

(** ** Responses and routes *)

Record response : Type := { status : Z; rbody : value }.

Definition error_json (e : verror) : value :=
  VObj [("field", VStr (path e)); ("message", VStr (msg e))].

(** [handleValidationErrors] (lines 151-160): [Some] response stops the request. *)
Definition handleValidationErrors (errs : list verror) : option response :=
  match errs with
  | [] => None
  | _ => Some {| status := 400;
                 rbody := VObj [("status", VStr "Validation Error");
                                ("errors", VArr (map error_json errs))] |}
  end.

Definition not_found : response :=
  {| status := 404; rbody := VObj [("error", VStr "Menu item not found")] |}.

Definition store := list obj.

(** [i.id === id] with [id] a number. *)
Definition id_matches (id : num) (i : obj) : bool :=
  match get i "id" with Some (VNum n) => num_eqb n id | _ => false end.

(** [menuItems.findIndex(i => i.id === id)], [None] for [-1]. *)
Fixpoint find_index (id : num) (s : store) : option nat :=
  match s with
  | [] => None
  | i :: r => if id_matches id i then Some O
              else option_map S (find_index id r)
  end.

(** [menuItems[index] = x] for an index in range. *)
Fixpoint replace_at (s : store) (n : nat) (x : obj) : store :=
  match s, n with
  | [], _ => []
  | _ :: r, O => x :: r
  | i :: r, S k => i :: replace_at r k x
  end.

(** [menuItems.splice(index, 1)] *)
Fixpoint remove_at (s : store) (n : nat) : store :=
  match s, n with
  | [], _ => []
  | _ :: r, O => r
  | i :: r, S k => i :: remove_at r k
  end.

(** GET /api/menu *)
Definition list_items (s : store) : store * response :=
  (s, {| status := 200; rbody := VArr (map VObj s) |}).

(** GET /api/menu/:id (lines 197-202) *)
Definition get_item (s : store) (seg : string) : store * response :=
  let id := parse_int seg in
  match find (id_matches id) s with
  | None => (s, not_found)
  | Some item => (s, {| status := 200; rbody := VObj item |})
  end.

(** The id of [newItem] (line 207). *)
Definition next_id (s : store) : value :=
  match s with
  | [] => vint 1
  | i :: r => VNum (num_add1 (math_max (get i "id") (map (fun j => get j "id") r)))
  end.

(** POST /api/menu (lines 205-213) *)
Definition create (s : store) (req_body : obj) : store * response :=
  let '(b, errs) := validate menuValidation req_body in
  match handleValidationErrors errs with
  | Some r => (s, r)
  | None =>
      let newItem :=
        set (spread [("id", next_id s)] b) "available"
            (match get b "available" with Some v => v | None => VBool true end) in
      (app s [newItem], {| status := 201; rbody := VObj newItem |})
  end.

(** PUT /api/menu/:id (lines 216-223) *)
Definition update (s : store) (seg : string) (req_body : obj) : store * response :=
  let '(b, errs) := validate menuValidation req_body in
  match handleValidationErrors errs with
  | Some r => (s, r)
  | None =>
      let id := parse_int seg in
      match find_index id s with
      | None => (s, not_found)
      | Some index =>
          let updated := spread [("id", VNum id)] b in
          (replace_at s index updated, {| status := 200; rbody := VObj updated |})
      end
  end.

(** DELETE /api/menu/:id (lines 226-233) *)
Definition delete (s : store) (seg : string) : store * response :=
  let id := parse_int seg in
  match find_index id s with
  | None => (s, not_found)
  | Some index =>
      (remove_at s index, {| status := 200; rbody := VObj [("message", VStr "Successfully deleted")] |})
  end.

(** ** The seed data (lines 163-172) *)

Definition strs (l : list string) : value := VArr (map VStr l).

Definition seed_item (id : Z) (name description : string) (pm pe : Z)
  (category : string) (ingredients : list string) : obj :=
  [("id", vint id); ("name", VStr name); ("description", VStr description);
   ("price", VNum (Fin pm pe)); ("category", VStr category);
   ("ingredients", strs ingredients); ("available", VBool true)].

Definition menuItems : store :=
  [ seed_item 1 "Classic Burger" "Juicy beef patty with fresh toppings" 1299 (-2)
      "entree" ["beef"; "lettuce"; "tomato"; "cheese"];
    seed_item 2 "Chicken Caesar Salad" "Crisp romaine lettuce with grilled chicken" 1150 (-2)
      "entree" ["chicken"; "romaine"; "parmesan"; "croutons"];
    seed_item 3 "Mozzarella Sticks" "Golden fried mozzarella with marinara sauce" 899 (-2)
      "appetizer" ["mozzarella"; "breading"; "marinara"];
    seed_item 4 "Chocolate Lava Cake" "Warm chocolate cake with molten center" 799 (-2)
      "dessert" ["chocolate"; "flour"; "eggs"; "butter"];
    seed_item 5 "Fresh Lemonade" "Refreshing homemade lemonade" 399 (-2)
      "beverage" ["lemon juice"; "water"; "sugar"];
    seed_item 6 "Apple Pie" "Classic apple pie with cinnamon spice" 450 (-2)
      "dessert" ["apples"; "cinnamon"; "flour"; "sugar"];
    seed_item 7 "Chicken Over Rice" "Grilled chicken served over seasoned yellow rice with white sauce" 1050 (-2)
      "entree" ["Chicken"; "Rice"; "White Sauce"; "Pita"];
    seed_item 8 "Fish over Rice" "Grilled or fried fish served over white and hot sauces" 1800 (-2)
      "entree" ["Fry Fish"; "Rice"; "Shrimp"; "lettuces"; "white sauces"] ].

(** The request body of the scenario of the spec (section 8). *)
Definition veggie_wrap : obj :=
  [("name", VStr "Veggie Wrap"); ("description", VStr "Fresh veggies wrapped in a tortilla");
   ("price", VNum (Fin 65 (-1))); ("category", VStr "entree");
   ("ingredients", strs ["veggies"; "tortilla"])].

(** The errors a chain reports on a request body. *)
Definition chain_errors (body : obj) (c : chain) : list verror :=
  snd (run_items c (get body (field c))).

(** The value of property [k] once the chains have sanitized the body. *)
Definition sanitized (chains : list chain) (body : obj) (k : string) : option value :=
  match find (fun c => String.eqb (field c) k) chains with
  | Some c => match fst (run_items c (get body k)) with Some x => Some x | None => get body k end
  | None => get body k
  end.

(** The property names of an object, in order. *)
Definition keys (o : obj) : list string := map fst o.

(** ** Reachable stores and auxiliary notions of the claims *)

(** Stores reachable from the seed data by the three mutating routes. *)
Inductive reachable : store -> Prop :=
| reach_seed : reachable menuItems
| reach_create s b : reachable s -> reachable (fst (create s b))
| reach_update s seg b : reachable s -> reachable (fst (update s seg b))
| reach_delete s seg : reachable s -> reachable (fst (delete s seg)).

Definition ids (s : store) : list (option value) := map (fun i => get i "id") s.


(** The 400 response built from a list of errors. *)
Definition validation_error (errs : list verror) : response :=
  {| status := 400;
     rbody := VObj [("status", VStr "Validation Error"); ("errors", VArr (map error_json errs))] |}.

Definition all_digits (s : string) : bool :=
  forallb (fun c => match digit_of c with Some _ => true | None => false end)
          (list_ascii_of_string s).

(** The scenario body carrying its own [id]. *)
Definition body_with_id : obj := ("id", vint 1) :: veggie_wrap.


(** The validation errors of a request body. *)
Definition errors_of (body : obj) : list verror := snd (validate menuValidation body).

(** The numeric value of a number (NaN read as 0; only used on finite ones). *)
Definition qv (n : num) : Q := match n with Fin m e => q_of m e | NaN => 0%Q end.

(** A chain without its last item. *)
Definition without_last (c : chain) : chain :=
  {| field := field c; optional := optional c; items := removelast (items c) |}.

(** Every stored id is a safe integer: a number [m] with no fractional
    part and [|m| <= 2^53 - 1 = Number.MAX_SAFE_INTEGER].  On such ids the
    double arithmetic of [Math.max(...ids) + 1] is exact. *)
Definition safe_int_ids (s : store) : Prop :=
  forall i, In i s -> exists m, get i "id" = Some (VNum (Fin m 0)) /\ (Z.abs m <= 9007199254740991)%Z.

(** The texts the length check of a text rule sees: the value trimmed, or
    each element trimmed when the value is an array (sanitizers and
    standard validators of express-validator work per array element). *)
Definition trimmed_texts (v : option value) : list string :=
  match v with
  | Some (VArr l) => map (fun x => trim (ev_to_string (Some x))) l
  | _ => [trim (ev_to_string v)]
  end.

(** The errors of a text rule [trim(), isString(), isLength({min: k})]
    on value [v]: "Invalid value" when [v] is an array, then one length
    error per trimmed text shorter than [k]. *)
Definition text_rule_errors (f : string) (k : nat) (m : string) (v : option value) : list verror :=
  app (match v with Some (VArr _) => [{| path := f; msg := invalid_value |}] | _ => [] end)
      (map (fun _ => {| path := f; msg := m |})
           (filter (fun t => negb (is_length_min k t)) (trimmed_texts v))).

(** The seven properties of a menu item. *)
Definition schema_fields : list string :=
  ["id"; "name"; "description"; "price"; "category"; "ingredients"; "available"].

(** The stored form of a free-text field: trimmed, then escaped. *)
Definition clean_text (v : option value) : value := VStr (escape (trim (ev_to_string v))).

(** The scenario body with a name holding a markup character. *)
Definition body_markup_name : obj := set veggie_wrap "name" (VStr "Mac & Cheese").

(** The name of the item a GET answers with, if any. *)
Definition response_name (r : response) : option value :=
  match rbody r with VObj item => get item "name" | _ => None end.

(** ** Request dispatch (lines 135-148, 187-244)

    The application's middleware stack in registration order: the JSON
    body parser, [requestLogger], the routes, the catch-all 404 and the
    error handler.  A request is given by its method (upper case, as Node
    delivers it), its original URL (echoed by the catch-all), its path name
    (the URL without the query) and [req.body] as the JSON parser leaves
    it; JSON array bodies are not represented. *)

Inductive req_body : Type :=
| Undefined             (* [req.body] is undefined *)
| JsonBody (o : obj)    (* a parsed object; [{}] when Express 4 sees no body *)
| BadJson.              (* the parser fails: the error goes to the error handler *)

Record request : Type := { method : string; url : string; pathname : string; reqbody : req_body }.

Definition lower (c : ascii) : ascii :=
  let n := nat_of_ascii c in
  if Nat.leb 65 n && Nat.leb n 90 then ascii_of_nat (n + 32) else c.

(** ASCII case folding, as the case-insensitive route regexps compare. *)
Definition lower_s (s : string) : string :=
  string_of_list_ascii (map lower (list_ascii_of_string s)).

(** ['/'] compiled to [^\/?$]. *)
Definition root_match (p : string) : bool := String.eqb p "" || String.eqb p "/".

(** ['/api/menu'] compiled to [^\/api\/menu\/?$] with flag [i]. *)
Definition list_match (p : string) : bool :=
  String.eqb (lower_s p) "/api/menu" || String.eqb (lower_s p) "/api/menu/".

(** ['/api/menu/:id'] compiled to [^\/api\/menu\/(?:([^\/]+?))\/?$] with
    flag [i]: the raw [id] capture when the path matches. *)
Definition id_param (p : string) : option string :=
  let l := list_ascii_of_string p in
  if String.eqb (lower_s (string_of_list_ascii (firstn 10 l))) "/api/menu/" then
    let rest := skipn 10 l in
    let seg := match rev rest with c :: r => if Ascii.eqb c "/"%char then rev r else rest | [] => rest end in
    match seg with
    | [] => None
    | _ => if existsb (Ascii.eqb "/"%char) seg then None else Some (string_of_list_ascii seg)
    end
  else None.

Definition hex_val (c : ascii) : option Z :=
  let n := Z.of_nat (nat_of_ascii c) in
  if (48 <=? n)%Z && (n <=? 57)%Z then Some (n - 48)
  else if (65 <=? n)%Z && (n <=? 70)%Z then Some (n - 55)
  else if (97 <=? n)%Z && (n <=? 102)%Z then Some (n - 87)
  else None.

(** Reads [HH] after a [%]. *)
Definition hex_byte (l : list ascii) : option (Z * list ascii) :=
  match l with
  | h1 :: h2 :: r =>
      match hex_val h1, hex_val h2 with
      | Some a, Some b => Some (a * 16 + b, r)
      | _, _ => None
      end
  | _ => None
  end.

(** Reads [n] escaped continuation bytes [%HH] (each [10xxxxxx]). *)
Fixpoint cont_bytes (n : nat) (l : list ascii) : option (list Z * list ascii) :=
  match n with
  | O => Some ([], l)
  | S k =>
      match l with
      | c :: r =>
          if Ascii.eqb c "%"%char then
            match hex_byte r with
            | Some (b, r1) =>
                if (Z.land b 192 =? 128)%Z then
                  match cont_bytes k r1 with
                  | Some (bs, r2) => Some (b :: bs, r2)
                  | None => None
                  end
                else None
            | None => None
            end
          else None
      | [] => None
      end
  end.

(** The code point of a lead byte and its continuation bytes. *)
Definition code_point (b : Z) (bs : list Z) : Z :=
  fold_left (fun acc c => Z.lor (Z.shiftl acc 6) (Z.land c 63)) bs
    (match length bs with
     | 1%nat => Z.land b 31
     | 2%nat => Z.land b 15
     | _ => Z.land b 7
     end).

(** A well-formed UTF-8 sequence: no overlong form, no surrogate, at most
    U+10FFFF. *)
Definition valid_utf8 (b : Z) (bs : list Z) : bool :=
  let cp := code_point b bs in
  match length bs with
  | 1%nat => (128 <=? cp)%Z
  | 2%nat => (2048 <=? cp)%Z && negb ((55296 <=? cp)%Z && (cp <=? 57343)%Z)
  | _ => (65536 <=? cp)%Z && (cp <=? 1114111)%Z
  end.

(** [decodeURIComponent] on the octets of the URL; [None] is a [URIError].
    Decoded text is kept as its UTF-8 bytes.  [fuel] is the length of the
    input (every step consumes at least one character). *)
Fixpoint decode_aux (fuel : nat) (l : list ascii) : option (list ascii) :=
  match fuel with
  | O => Some []
  | S f =>
      match l with
      | [] => Some []
      | c :: r =>
          if Ascii.eqb c "%"%char then
            match hex_byte r with
            | None => None
            | Some (b, r1) =>
                if (b <? 128)%Z then option_map (cons (ascii_of_nat (Z.to_nat b))) (decode_aux f r1)
                else
                  let n := if (Z.land b 224 =? 192)%Z then 1%nat
                           else if (Z.land b 240 =? 224)%Z then 2%nat
                           else if (Z.land b 248 =? 240)%Z then 3%nat else O in
                  match n with
                  | O => None
                  | _ =>
                      match cont_bytes n r1 with
                      | None => None
                      | Some (bs, r2) =>
                          if valid_utf8 b bs then
                            option_map (fun t => app (map (fun z => ascii_of_nat (Z.to_nat z)) (b :: bs)) t)
                                       (decode_aux f r2)
                          else None
                      end
                  end
            end
          else option_map (cons c) (decode_aux f r)
      end
  end.

(** Express's [decode_param]: the empty string is kept, otherwise
    [decodeURIComponent]. *)
Definition decode_param (s : string) : option string :=
  match s with
  | EmptyString => Some s
  | _ => let l := list_ascii_of_string s in
         option_map string_of_list_ascii (decode_aux (length l) l)
  end.

Definition internal_error : response :=
  {| status := 500; rbody := VObj [("error", VStr "Internal Server Error")] |}.

Definition route_not_found (u : string) : response :=
  {| status := 404; rbody := VObj [("error", VStr "Route not found"); ("path", VStr u)] |}.

Definition home_page : response :=
  {| status := 200;
     rbody := VStr "<h1>Server is working!</h1><p>Navigate to <b>/api/menu</b> to see the data.</p>" |}.

(** A route registered with [app.get] also answers HEAD. *)
Definition handles_get (m : string) : bool := String.eqb m "GET" || String.eqb m "HEAD".

(** [requestLogger] evaluates [Object.keys(req.body)] for POST and PUT,
    which throws when [req.body] is undefined. *)
Definition logger_throws (m : string) (rb : req_body) : bool :=
  match rb with
  | Undefined => String.eqb m "POST" || String.eqb m "PUT"
  | _ => false
  end.

(** The whole application on one request.  A path matching the [:id]
    routes has its parameter decoded when the first of them is tried,
    whatever the method; a decoding failure goes to the error handler. *)
Definition handle_request (s : store) (r : request) : store * response :=
  match reqbody r with
  | BadJson => (s, internal_error)
  | rb =>
      if logger_throws (method r) rb then (s, internal_error) else
      let b := match rb with JsonBody o => o | _ => [] end in
      let p := pathname r in
      let m := method r in
      if root_match p && handles_get m then (s, home_page)
      else if list_match p && handles_get m then list_items s
      else
        match id_param p with
        | Some raw =>
            match decode_param raw with
            | None => (s, internal_error)
            | Some seg =>
                if handles_get m then get_item s seg
                else if String.eqb m "PUT" then update s seg b
                else if String.eqb m "DELETE" then delete s seg
                else (s, route_not_found (url r))
            end
        | None =>
            if list_match p && String.eqb m "POST" then create s b
            else (s, route_not_found (url r))
        end
  end.

(** ** The first version of the application (lines 1-124)

    Its GET and DELETE handlers are the code of [get_item] and [delete].
    A rejected request is given by its validation errors: the 400 body
    [{errors: errors.array()}] carries them with express-validator's
    further error fields, which are not modelled. *)

Module V1.

Inductive v1_response : Type :=
| Rejected (errs : list verror)
| Answered (r : response).

(** [menuValidation] (lines 42-49): no sanitizers; [isString] and the
    last [isBoolean] keep the default message. *)
Definition name_rule : chain :=
  {| field := "name"; optional := false;
     items := [Custom is_string invalid_value;
               Standard (is_length_min 3) "Name must be at least 3 chars"] |}.

Definition description_rule : chain :=
  {| field := "description"; optional := false;
     items := [Custom is_string invalid_value;
               Standard (is_length_min 10) "Description must be at least 10 chars"] |}.

Definition price_rule : chain :=
  {| field := "price"; optional := false;
     items := [Standard is_float_gt0 "Price must be greater than 0"] |}.

Definition category_rule : chain :=
  {| field := "category"; optional := false;
     items := [Standard (is_in ["appetizer"; "entree"; "dessert"; "beverage"]) "Invalid category"] |}.

Definition ingredients_rule : chain :=
  {| field := "ingredients"; optional := false;
     items := [Custom is_array_min1 "At least one ingredient required"] |}.

Definition available_rule : chain :=
  {| field := "available"; optional := true; items := [Standard is_boolean invalid_value] |}.

Definition menuValidation : list chain :=
  [name_rule; description_rule; price_rule; category_rule; ingredients_rule; available_rule].

(** The seed data (lines 33-39). *)
Definition menuItems : store :=
  [ [("id", vint 1); ("name", VStr "Classic Burger"); ("price", VNum (Fin 1299 (-2)));
     ("category", VStr "entree"); ("available", VBool true)];
    [("id", vint 2); ("name", VStr "Chicken Caesar Salad"); ("price", VNum (Fin 1150 (-2)));
     ("category", VStr "entree"); ("available", VBool true)];
    [("id", vint 3); ("name", VStr "Mozzarella Sticks"); ("price", VNum (Fin 899 (-2)));
     ("category", VStr "appetizer"); ("available", VBool true)];
    [("id", vint 4); ("name", VStr "Chocolate Lava Cake"); ("price", VNum (Fin 799 (-2)));
     ("category", VStr "dessert"); ("available", VBool true)];
    [("id", vint 5); ("name", VStr "Fresh Lemonade"); ("price", VNum (Fin 399 (-2)));
     ("category", VStr "beverage"); ("available", VBool true)] ].

(** [k: req.body.k] in an object literal; an undefined value is left out,
    as the JSON answer leaves it out. *)
Definition field_of (b : obj) (k : string) : obj :=
  match get b k with Some v => [(k, v)] | None => [] end.

(** The object literal of [newItem] and [updated] (lines 71-79, 94-102). *)
Definition item_of (id : value) (b : obj) : obj :=
  app [("id", id)]
      (app (field_of b "name")
           (app (field_of b "description")
                (app (field_of b "price")
                     (app (field_of b "category")
                          (app (field_of b "ingredients")
                               [("available", match get b "available" with Some v => v | None => VBool true end)]))))).

(** POST /api/menu (lines 70-83) *)
Definition create (s : store) (req_body : obj) : store * v1_response :=
  let '(b, errs) := validate menuValidation req_body in
  match errs with
  | _ :: _ => (s, Rejected errs)
  | [] =>
      let newItem := item_of (vint (Z.of_nat (length s) + 1)) b in
      (app s [newItem], Answered {| status := 201; rbody := VObj newItem |})
  end.

(** PUT /api/menu/:id (lines 86-106) *)
Definition update (s : store) (seg : string) (req_body : obj) : store * v1_response :=
  let '(b, errs) := validate menuValidation req_body in
  match errs with
  | _ :: _ => (s, Rejected errs)
  | [] =>
      let id := parse_int seg in
      match find_index id s with
      | None => (s, Answered not_found)
      | Some index =>
          let updated := item_of (VNum id) b in
          (replace_at s index updated, Answered {| status := 200; rbody := VObj updated |})
      end
  end.

(** The validation errors of a request body. *)
Definition errors_of (body : obj) : list verror := snd (validate menuValidation body).

End V1.

(** ** Auxiliary notions of the further properties *)

(** The answer of a successful DELETE. *)
Definition deleted_response : response :=
  {| status := 200; rbody := VObj [("message", VStr "Successfully deleted")] |}.

(** None of the characters [escape] replaces, except [&]:
    [<], [>], double quote, ['], [/], backslash and backquote. *)
Definition markup_free (s : string) : bool :=
  forallb (fun c => negb (existsb (Nat.eqb (nat_of_ascii c)) [60; 62; 34; 39; 47; 92; 96]%nat))
          (list_ascii_of_string s).

(** A stored item with an id, a string name of at least 3 characters and a
    string description of at least 10, both free of markup characters,
    and a non-empty ingredients array. *)
Definition well_formed_item (i : obj) : Prop :=
  get i "id" <> None /\
  (exists n, get i "name" = Some (VStr n) /\ (3 <= String.length n)%nat /\ markup_free n = true) /\
  (exists d, get i "description" = Some (VStr d) /\ (10 <= String.length d)%nat /\ markup_free d = true) /\
  (exists x l, get i "ingredients" = Some (VArr (x :: l))).

(** [well_formed_item] as a test. *)
Definition well_formed_itemb (i : obj) : bool :=
  match get i "id" with None => false | Some _ => true end &&
  match get i "name" with Some (VStr n) => Nat.leb 3 (String.length n) && markup_free n | _ => false end &&
  match get i "description" with
  | Some (VStr d) => Nat.leb 10 (String.length d) && markup_free d
  | _ => false
  end &&
  match get i "ingredients" with Some (VArr (_ :: _)) => true | _ => false end.

(** A JSON object body has distinct property names. *)
Definition json_body_ok (r : request) : Prop :=
  match reqbody r with JsonBody o => NoDup (keys o) | _ => True end.

(** The stores the running server goes through, from the seed data. *)
Inductive served : store -> Prop :=
| served_seed : served menuItems
| served_step s r : served s -> json_body_ok r -> served (fst (handle_request s r)).

(** ** Properties of objects *)

Lemma get_set_eq (o : obj) (k : string) (v : value) : get (set o k v) k = Some v.
Proof.
  induction o as [|[k' v'] r IH]; simpl.
  - rewrite String.eqb_refl; reflexivity.
  - destruct (String.eqb k k') eqn:E; simpl.
    + rewrite E; reflexivity.
    + rewrite E; exact IH.
Qed.

Lemma get_set_ne (o : obj) (k k' : string) (v : value) :
  k <> k' -> get (set o k v) k' = get o k'.
Proof.
  intros Hne; induction o as [|[k0 v0] r IH]; simpl.
  - destruct (String.eqb k' k) eqn:E; [apply String.eqb_eq in E; congruence | reflexivity].
  - destruct (String.eqb k k0) eqn:E; simpl.
    + apply String.eqb_eq in E; subst k0.
      destruct (String.eqb k' k) eqn:E'; [apply String.eqb_eq in E'; congruence | reflexivity].
    + destruct (String.eqb k' k0); [reflexivity | exact IH].
Qed.

Lemma in_keys_set (o : obj) (k k' : string) (v : value) :
  In k' (keys (set o k v)) <-> k' = k \/ In k' (keys o).
Proof.
  induction o as [|[k0 v0] r IH]; simpl.
  - intuition congruence.
  - destruct (String.eqb k k0) eqn:E; simpl.
    + apply String.eqb_eq in E; subst k0; intuition congruence.
    + rewrite IH; intuition congruence.
Qed.

Lemma nodup_set (o : obj) (k : string) (v : value) :
  NoDup (keys o) -> NoDup (keys (set o k v)).
Proof.
  induction o as [|[k0 v0] r IH]; simpl; intros Hnd.
  - constructor; [intros [] | constructor].
  - inversion Hnd as [|? ? Hnin Hnd']; subst.
    destruct (String.eqb k k0) eqn:E; simpl.
    + constructor; assumption.
    + constructor; [|apply IH; assumption].
      rewrite in_keys_set; intros [->|Hin]; [|contradiction].
      rewrite String.eqb_refl in E; discriminate.
Qed.

Lemma get_not_in (o : obj) (k : string) : ~ In k (keys o) -> get o k = None.
Proof.
  induction o as [|[k0 v0] r IH]; simpl; intros Hn; [reflexivity|].
  destruct (String.eqb k k0) eqn:E.
  - apply String.eqb_eq in E; subst; tauto.
  - apply IH; tauto.
Qed.

Lemma get_in (o : obj) (k : string) (v : value) : get o k = Some v -> In k (keys o).
Proof.
  induction o as [|[k0 v0] r IH]; simpl; [discriminate|].
  destruct (String.eqb k k0) eqn:E; intros H.
  - apply String.eqb_eq in E; auto.
  - auto.
Qed.

(** A spread of an object with distinct keys: its properties win. *)
Lemma get_spread (t src : obj) (k : string) :
  NoDup (keys src) ->
  get (spread t src) k = match get src k with Some v => Some v | None => get t k end.
Proof.
  unfold spread; revert t; induction src as [|[k0 v0] r IH]; intros t Hnd; simpl; [reflexivity|].
  inversion Hnd as [|? ? Hnin Hnd']; subst.
  rewrite IH by assumption.
  destruct (String.eqb k k0) eqn:E.
  - apply String.eqb_eq in E; subst k0.
    rewrite (get_not_in r k Hnin), get_set_eq; reflexivity.
  - destruct (get r k); [reflexivity|].
    apply get_set_ne; intros ->; rewrite String.eqb_refl in E; discriminate.
Qed.

Lemma nodup_spread (t src : obj) : NoDup (keys t) -> NoDup (keys (spread t src)).
Proof.
  unfold spread; revert t; induction src as [|[k0 v0] r IH]; intros t H; simpl; [exact H|].
  apply IH, nodup_set, H.
Qed.

(** ** Properties of validation *)

Lemma find_all_false {A : Type} (f : A -> bool) (l : list A) :
  (forall x, In x l -> f x = false) -> find f l = None.
Proof.
  induction l as [|a r IH]; simpl; intros H; [reflexivity|].
  rewrite (H a (or_introl eq_refl)); apply IH; auto.
Qed.

Lemma get_run_chain_ne (b : obj) (c : chain) (k : string) :
  field c <> k -> get (fst (run_chain b c)) k = get b k.
Proof.
  intros Hne; unfold run_chain.
  destruct (run_items c (get b (field c))) as [[x|] e]; simpl; [|reflexivity].
  apply get_set_ne; exact Hne.
Qed.

Lemma get_run_chain_eq (b : obj) (c : chain) :
  get (fst (run_chain b c)) (field c) =
  match fst (run_items c (get b (field c))) with Some x => Some x | None => get b (field c) end.
Proof.
  unfold run_chain.
  destruct (run_items c (get b (field c))) as [[x|] e]; simpl; [apply get_set_eq|reflexivity].
Qed.

Lemma validate_fold (chains : list chain) :
  forall (b : obj) (acc : list verror),
  NoDup (map field chains) ->
  let r := fold_left (fun st c => let '(b, es) := st in
                                  let '(b', e) := run_chain b c in (b', app es e))
                     chains (b, acc) in
  snd r = app acc (concat (map (chain_errors b) chains)) /\
  forall k, get (fst r) k = sanitized chains b k.
Proof.
  induction chains as [|c0 rest IH]; intros b acc Hnd r; subst r; simpl.
  - rewrite app_nil_r; split; reflexivity.
  - inversion Hnd as [|? ? Hnin Hnd']; subst.
    destruct (run_chain b c0) as [b1 e0] eqn:Erc; simpl.
    destruct (IH b1 (app acc e0) Hnd') as [Herr Hget]; split.
    + rewrite Herr, <- app_assoc; f_equal.
      assert (He0 : e0 = chain_errors b c0).
      { unfold chain_errors; unfold run_chain in Erc.
        destruct (run_items c0 (get b (field c0))); inversion Erc; reflexivity. }
      rewrite He0; f_equal; f_equal; apply map_ext_in; intros c Hc.
      unfold chain_errors; f_equal; f_equal.
      assert (b1 = fst (run_chain b c0)) as -> by (rewrite Erc; reflexivity).
      apply get_run_chain_ne; intros Heq; apply Hnin; rewrite Heq; apply in_map, Hc.
    + intros k; rewrite Hget; unfold sanitized; simpl.
      assert (Hb1 : b1 = fst (run_chain b c0)) by (rewrite Erc; reflexivity).
      destruct (String.eqb (field c0) k) eqn:E.
      * apply String.eqb_eq in E; subst k.
        replace (find (fun c => String.eqb (field c) (field c0)) rest) with (@None chain).
        -- rewrite Hb1, get_run_chain_eq; reflexivity.
        -- symmetry; apply find_all_false; intros c Hc.
           apply String.eqb_neq; intros Heq; apply Hnin; rewrite <- Heq; apply in_map, Hc.
      * destruct (find (fun c => String.eqb (field c) k) rest) as [c|] eqn:Ef.
        -- rewrite Hb1, get_run_chain_ne by (apply String.eqb_neq; exact E); reflexivity.
        -- rewrite Hb1, get_run_chain_ne by (apply String.eqb_neq; exact E); reflexivity.
Qed.

Lemma validate_spec (chains : list chain) (body : obj) :
  NoDup (map field chains) ->
  snd (validate chains body) = concat (map (chain_errors body) chains) /\
  forall k, get (fst (validate chains body)) k = sanitized chains body k.
Proof.
  intros Hnd; exact (validate_fold chains body [] Hnd).
Qed.

Lemma menuValidation_nodup : NoDup (map field menuValidation).
Proof.
  simpl; repeat constructor; simpl; intuition discriminate.
Qed.


(** ** Claims settled on concrete requests *)

(** C1 (code_bug): a create body carrying an [id] property keeps it: on
    the seed store the body [{id: 1, ...}] is stored and answered with id 1
    although one more than the maximum id is 9. *)
Lemma create_keeps_body_id :
  next_id menuItems = vint 9 /\
  exists item, create menuItems body_with_id = (app menuItems [item], {| status := 201; rbody := VObj item |}) /\
               get item "id" = Some (vint 1).
Proof.
  split; [reflexivity|].
  eexists; split; vm_compute; reflexivity.
Qed.

(** C2 (code_bug): ids are not unique in every reachable store: creating
    [{id: 1, ...}] on the seed store gives two items with id 1. *)
Lemma reachable_duplicate_ids : ~ (forall s, reachable s -> NoDup (ids s)).
Proof.
  intros H.
  specialize (H _ (reach_create _ body_with_id reach_seed)).
  vm_compute in H.
  inversion H as [|x l Hnin Hnd]; subst.
  apply Hnin; repeat (try (left; reflexivity); right).
Qed.

(** C4 (code_bug): PUT replaces the record without defaulting [available]:
    PUT /api/menu/3 with the scenario body, which omits it, stores and
    returns a record with no [available] property. *)
Lemma update_omits_available :
  exists item, update menuItems "3" veggie_wrap =
               (replace_at menuItems 2 item, {| status := 200; rbody := VObj item |}) /\
               get item "id" = Some (vint 3) /\ get item "available" = None.
Proof.
  eexists; split; [vm_compute; reflexivity|].
  split; vm_compute; reflexivity.
Qed.

(** C8 (counterexample): the non-numeric segment ["3abc"] parses to 3 and
    GET /api/menu/3abc answers 200 with item 3 instead of NotFound. *)
Lemma get_item_numeric_prefix :
  ~ (forall s seg, all_digits seg = false -> snd (get_item s seg) = not_found).
Proof.
  intros H.
  specialize (H menuItems "3abc" eq_refl).
  vm_compute in H; discriminate H.
Qed.

(** C7 (counterexample): a payload named "Mac & Cheese" is stored as
    "Mac &amp; Cheese", so GET of the new id does not give back the name of
    the payload. *)
Lemma create_then_get_escapes_name :
  ~ (forall P seg, errors_of P = [] -> VNum (parse_int seg) = next_id menuItems ->
       response_name (snd (get_item (fst (create menuItems P)) seg)) = get P "name").
Proof.
  intros H.
  specialize (H body_markup_name "9" ltac:(vm_compute; reflexivity) ltac:(vm_compute; reflexivity)).
  vm_compute in H; discriminate H.
Qed.


(** ** Route lemmas *)

Lemma create_invalid (s : store) (body : obj) :
  errors_of body <> [] -> create s body = (s, validation_error (errors_of body)).
Proof.
  unfold create, errors_of; destruct (validate menuValidation body) as [b errs]; simpl.
  destruct errs; [congruence | reflexivity].
Qed.

Lemma update_invalid (s : store) (seg : string) (body : obj) :
  errors_of body <> [] -> update s seg body = (s, validation_error (errors_of body)).
Proof.
  unfold update, errors_of; destruct (validate menuValidation body) as [b errs]; simpl.
  destruct errs; [congruence | reflexivity].
Qed.

Lemma find_index_none (id : num) (s : store) :
  (forall i, In i s -> id_matches id i = false) -> find_index id s = None.
Proof.
  induction s as [|i r IH]; simpl; intros H; [reflexivity|].
  rewrite (H i (or_introl eq_refl)), IH by auto; reflexivity.
Qed.

(** The three routes on an id that matches no stored item. *)
Lemma routes_absent (s : store) (seg : string) :
  (forall i, In i s -> id_matches (parse_int seg) i = false) ->
  get_item s seg = (s, not_found) /\ delete s seg = (s, not_found) /\
  (forall body, errors_of body = [] -> update s seg body = (s, not_found)).
Proof.
  intros Habs; split; [|split].
  - unfold get_item; rewrite find_all_false by exact Habs; reflexivity.
  - unfold delete; rewrite find_index_none by exact Habs; reflexivity.
  - intros body Hok; unfold update; unfold errors_of in Hok.
    destruct (validate menuValidation body) as [b errs]; simpl in Hok; subst errs; simpl.
    rewrite find_index_none by exact Habs; reflexivity.
Qed.

Lemma id_matches_nan (i : obj) : id_matches NaN i = false.
Proof.
  unfold id_matches; destruct (get i "id") as [[| | [|] | | |]|]; reflexivity.
Qed.

(** ** Claims proved for all requests *)





(** C8 (amended): a segment that [parseInt] turns into NaN (no decimal
    digit after optional whitespace and sign) matches no item, whatever the
    store holds: GET and DELETE answer 404, and so does PUT with a valid
    payload. *)
Theorem nan_segment_not_found (s : store) (seg : string) (Hnan : parse_int seg = NaN) :
  get_item s seg = (s, not_found) /\ delete s seg = (s, not_found) /\
  (forall body, errors_of body = [] -> update s seg body = (s, not_found)).
Proof.
  apply routes_absent; intros i _; rewrite Hnan; apply id_matches_nan.
Qed.

Lemma nan_segment_not_found_witness :
  parse_int "abc" = NaN /\ get_item menuItems "abc" = (menuItems, not_found).
Proof.
  split; [reflexivity|].
  exact (proj1 (nan_segment_not_found menuItems "abc" eq_refl)).
Defined.

(** ** Per-rule behaviour of the validation chains *)




(** A trailing sanitizer does not change the errors of a chain. *)
Lemma errors_without_last_sanitizer (c : chain) (l : list item) (g : string -> string) (v : option value) :
  items c = app l [Sanitizer g] ->
  snd (run_items c v) = snd (run_items (without_last c) v).
Proof.
  intros Hit; unfold run_items, without_last; simpl; rewrite Hit, removelast_last.
  assert (Hf : forall st, snd (fold_left (run_item (field c)) (app l [Sanitizer g]) st) =
                          snd (fold_left (run_item (field c)) l st)).
  { intros st; rewrite fold_left_app; simpl.
    destruct (fold_left (run_item (field c)) l st); reflexivity. }
  destruct v; [apply Hf|destruct (optional c); [reflexivity|apply Hf]].
Qed.



Lemma filter_trimmed_elems (k : nat) (f m : string) (l : list value) :
  map (fun _ => {| path := f; msg := m |})
      (filter (fun x => negb (is_length_min k (ev_to_string x)))
              (map Some (map (fun x => VStr (trim (ev_to_string (Some x)))) l))) =
  map (fun _ => {| path := f; msg := m |})
      (filter (fun t => negb (is_length_min k t)) (map (fun x => trim (ev_to_string (Some x))) l)).
Proof.
  induction l as [|x r IH]; [reflexivity|].
  cbn [map filter]; change (ev_to_string (Some (VStr ?u))) with u.
  destruct (negb (is_length_min k (trim (ev_to_string (Some x))))); cbn [map]; rewrite IH; reflexivity.
Qed.

Lemma text_chain_errors (body : obj) (c : chain) (f : string) (k : nat) (m : string) :
  c = {| field := f; optional := false;
         items := [Sanitizer trim; Custom is_string invalid_value;
                   Standard (is_length_min k) m; Sanitizer escape] |} ->
  chain_errors body c = text_rule_errors f k m (get body f).
Proof.
  intros ->; unfold chain_errors, text_rule_errors, trimmed_texts; simpl field.
  destruct (get body f) as [[| | | | l |]|]; cbn -[trim escape is_length_min ev_to_string];
    try (change (ev_to_string (Some (VStr ?u))) with u;
         destruct (is_length_min _ _); reflexivity).
  f_equal; apply filter_trimmed_elems.
Qed.

(** C9: for every request body, the name and description rules trim the
    value (each element of an array) before checking its length, and the
    length outcome is decided on the trimmed, unescaped text: the errors of
    each rule are "Invalid value" for an array, then one length error per
    trimmed text that is too short, and dropping the trailing [escape()]
    from either chain never changes its errors. *)
Theorem text_rules_trim_before_length (body : obj) :
  chain_errors body name_rule =
    text_rule_errors "name" 3 "Name must be at least 3 characters" (get body "name") /\
  chain_errors body description_rule =
    text_rule_errors "description" 10 "Description must be at least 10 characters"
                     (get body "description") /\
  chain_errors body name_rule = chain_errors body (without_last name_rule) /\
  chain_errors body description_rule = chain_errors body (without_last description_rule).
Proof.
  split; [|split; [|split]].
  - apply text_chain_errors; reflexivity.
  - apply text_chain_errors; reflexivity.
  - apply (errors_without_last_sanitizer name_rule
             [Sanitizer trim; Custom is_string invalid_value;
              Standard (is_length_min 3) "Name must be at least 3 characters"] escape).
    reflexivity.
  - apply (errors_without_last_sanitizer description_rule
             [Sanitizer trim; Custom is_string invalid_value;
              Standard (is_length_min 10) "Description must be at least 10 characters"] escape).
    reflexivity.
Qed.

Lemma text_rules_trim_before_length_witness :
  chain_errors [("name", VStr "  ab  "); ("description", VStr " <b>x</b> ")] name_rule =
    [{| path := "name"; msg := "Name must be at least 3 characters" |}] /\
  chain_errors [("name", VArr [VStr " ab "; VStr " abc "])] name_rule =
    [{| path := "name"; msg := invalid_value |};
     {| path := "name"; msg := "Name must be at least 3 characters" |}].
Proof.
  split.
  - rewrite (proj1 (text_rules_trim_before_length [("name", VStr "  ab  "); ("description", VStr " <b>x</b> ")])).
    vm_compute; reflexivity.
  - rewrite (proj1 (text_rules_trim_before_length [("name", VArr [VStr " ab "; VStr " abc "])])).
    vm_compute; reflexivity.
Defined.

(** ** The id of a created item exceeds every stored id *)

Lemma qv_add1 (m e : Z) : (qv (num_add1 (Fin m e)) == qv (Fin m e) + 1)%Q.
Proof.
  unfold num_add1, qv, q_of; destruct (0 <=? e)%Z eqn:E; simpl.
  - rewrite Z.mul_1_r, inject_Z_plus; reflexivity.
  - rewrite E.
    assert (Hp : Z.pos (Z.to_pos (10 ^ (- e))) = 10 ^ (- e)).
    { apply Z2Pos.id; apply Z.pow_pos_nonneg; lia. }
    unfold Qeq, Qplus; simpl.
    rewrite Pos2Z.inj_mul, Hp; ring.
Qed.

Lemma num_ltb_spec (a b : num) (m1 e1 m2 e2 : Z) :
  a = Fin m1 e1 -> b = Fin m2 e2 ->
  (num_ltb a b = true -> (qv a < qv b)%Q) /\ (num_ltb a b = false -> (qv b <= qv a)%Q).
Proof.
  intros -> ->; unfold num_ltb, qv; split; intros H.
  - apply negb_true_iff in H.
    destruct (Qlt_le_dec (q_of m1 e1) (q_of m2 e2)) as [Hlt|Hle]; [exact Hlt|].
    apply Qle_bool_iff in Hle; congruence.
  - apply negb_false_iff, Qle_bool_iff in H; exact H.
Qed.

Lemma fold_max_fin (ns : list num) :
  forall m0 e0, (forall n, In n ns -> exists m e, n = Fin m e) ->
  exists m e,
    fold_left (fun acc n => if num_ltb acc n then n else acc) ns (Fin m0 e0) = Fin m e /\
    (qv (Fin m0 e0) <= qv (Fin m e))%Q /\ forall n, In n ns -> (qv n <= qv (Fin m e))%Q.
Proof.
  induction ns as [|n r IH]; intros m0 e0 Hfin; cbn [fold_left].
  - exists m0, e0; split; [reflexivity|]; split; [apply Qle_refl | intros _ []].
  - destruct (Hfin n (or_introl eq_refl)) as [a [b ->]].
    assert (Hr : forall x, In x r -> exists m e, x = Fin m e) by (intros x Hx; apply Hfin; right; exact Hx).
    destruct (num_ltb_spec (Fin m0 e0) (Fin a b) m0 e0 a b eq_refl eq_refl) as [Hlt Hge].
    destruct (num_ltb (Fin m0 e0) (Fin a b)) eqn:E.
    + destruct (IH a b Hr) as [m [e [Hf [H0 Hall]]]].
      specialize (Hlt eq_refl).
      exists m, e; split; [exact Hf|]; split; [apply Qlt_le_weak; apply Qlt_le_trans with (qv (Fin a b)); assumption|].
      intros x [<-|Hx]; [exact H0|apply Hall, Hx].
    + destruct (IH m0 e0 Hr) as [m [e [Hf [H0 Hall]]]].
      specialize (Hge eq_refl).
      exists m, e; split; [exact Hf|]; split; [exact H0|].
      intros x [<-|Hx]; [apply Qle_trans with (qv (Fin m0 e0)); assumption|apply Hall, Hx].
Qed.

Lemma num_add1_fin (m e : Z) : exists m' e', num_add1 (Fin m e) = Fin m' e'.
Proof.
  unfold num_add1; destruct (0 <=? e)%Z; eexists; eexists; reflexivity.
Qed.

(** With numeric ids only, [next_id] is a number that no stored id equals. *)
Lemma next_id_fresh (s : store) :
  (forall i, In i s -> exists m e, get i "id" = Some (VNum (Fin m e))) ->
  exists m e, next_id s = VNum (Fin m e) /\ forall i, In i s -> id_matches (Fin m e) i = false.
Proof.
  destruct s as [|i r]; intros Hids.
  - exists 1, 0; split; [reflexivity | intros _ []].
  - destruct (Hids i (or_introl eq_refl)) as [m0 [e0 Hi]].
    set (ns := map to_number (map (fun j => get j "id") r)).
    assert (Hns : forall n, In n ns -> exists m e, n = Fin m e).
    { intros n Hn; unfold ns in Hn; rewrite map_map in Hn; apply in_map_iff in Hn.
      destruct Hn as [j [<- Hj]].
      destruct (Hids j (or_intror Hj)) as [a [b Hj']]; rewrite Hj'; exists a, b; reflexivity. }
    assert (Hnan : existsb is_nan ns = false).
    { apply not_true_iff_false; intros Hx; apply existsb_exists in Hx.
      destruct Hx as [n [Hn Hnn]]; destruct (Hns n Hn) as [a [b ->]]; discriminate. }
    destruct (fold_max_fin ns m0 e0 Hns) as [m [e [Hf [H0 Hall]]]].
    destruct (num_add1_fin m e) as [m' [e' Ha]].
    exists m', e'; split.
    + unfold next_id, math_max; rewrite Hi; simpl to_number.
      fold ns; rewrite Hnan; simpl; rewrite Hf, Ha; reflexivity.
    + assert (Hq : (qv (Fin m' e') == qv (Fin m e) + 1)%Q) by (rewrite <- Ha; apply qv_add1).
      intros j Hj; unfold id_matches.
      assert (Hle : exists a b, get j "id" = Some (VNum (Fin a b)) /\ (qv (Fin a b) <= qv (Fin m e))%Q).
      { destruct Hj as [<-|Hj].
        - exists m0, e0; split; [exact Hi|exact H0].
        - destruct (Hids j (or_intror Hj)) as [a [b Hj']].
          exists a, b; split; [exact Hj'|]; apply Hall.
          unfold ns; rewrite map_map; apply in_map_iff; exists j; rewrite Hj'; auto. }
      destruct Hle as [a [b [-> Hab]]].
      unfold num_eqb; apply not_true_iff_false; intros Heq; apply Qeq_bool_iff in Heq.
      simpl in Hab, Hq; lra.
Qed.

(** ** Successful creates and updates *)

Lemma create_valid (s : store) (body : obj) :
  errors_of body = [] ->
  create s body =
    (let b := fst (validate menuValidation body) in
     let newItem := set (spread [("id", next_id s)] b) "available"
                        (match get b "available" with Some v => v | None => VBool true end) in
     (app s [newItem], {| status := 201; rbody := VObj newItem |})).
Proof.
  unfold create, errors_of; destruct (validate menuValidation body) as [b errs]; simpl.
  intros ->; reflexivity.
Qed.

Lemma update_valid (s : store) (seg : string) (body : obj) (index : nat) :
  errors_of body = [] -> find_index (parse_int seg) s = Some index ->
  update s seg body =
    (let updated := spread [("id", VNum (parse_int seg))] (fst (validate menuValidation body)) in
     (replace_at s index updated, {| status := 200; rbody := VObj updated |})).
Proof.
  unfold update, errors_of; destruct (validate menuValidation body) as [b errs]; simpl.
  intros -> Hi; simpl; rewrite Hi; reflexivity.
Qed.

Lemma nodup_validate (chains : list chain) :
  forall (b : obj) (acc : list verror), NoDup (keys b) ->
  NoDup (keys (fst (fold_left (fun st c => let '(b, es) := st in
                                           let '(b', e) := run_chain b c in (b', app es e))
                               chains (b, acc)))).
Proof.
  induction chains as [|c r IH]; intros b acc Hnd; simpl; [exact Hnd|].
  destruct (run_chain b c) as [b1 e] eqn:Erc; apply IH.
  unfold run_chain in Erc; destruct (run_items c (get b (field c))) as [[x|] e'];
    inversion Erc; subst; [apply nodup_set|]; exact Hnd.
Qed.

(** Properties other than name and description pass validation unchanged. *)
Lemma get_validated_plain (body : obj) (k : string) :
  k <> "name" -> k <> "description" ->
  get (fst (validate menuValidation body)) k = get body k.
Proof.
  intros H1 H2; rewrite (proj2 (validate_spec _ body menuValidation_nodup)).
  unfold sanitized, menuValidation.
  cbn [find field name_rule description_rule price_rule category_rule ingredients_rule available_rule].
  destruct (String.eqb "name" k) eqn:E1; [apply String.eqb_eq in E1; congruence|].
  destruct (String.eqb "description" k) eqn:E2; [apply String.eqb_eq in E2; congruence|].
  destruct (String.eqb "price" k) eqn:E3;
    [apply String.eqb_eq in E3; subst k; destruct (get body "price"); reflexivity|].
  destruct (String.eqb "category" k) eqn:E4;
    [apply String.eqb_eq in E4; subst k; destruct (get body "category"); reflexivity|].
  destruct (String.eqb "ingredients" k) eqn:E5;
    [apply String.eqb_eq in E5; subst k; destruct (get body "ingredients"); reflexivity|].
  destruct (String.eqb "available" k) eqn:E6;
    [apply String.eqb_eq in E6; subst k; destruct (get body "available"); reflexivity|].
  reflexivity.
Qed.

Lemma concat_map_nil {A B : Type} (f : A -> list B) (l : list A) :
  concat (map f l) = [] -> forall x, In x l -> f x = [].
Proof.
  induction l as [|a r IH]; simpl; intros H x Hx; [destruct Hx|].
  apply app_eq_nil in H; destruct H as [Ha Hr].
  destruct Hx as [<-|Hx]; [exact Ha | apply IH; assumption].
Qed.

Lemma valid_rule_errors (body : obj) (c : chain) :
  errors_of body = [] -> In c menuValidation -> chain_errors body c = [].
Proof.
  intros Hok; unfold errors_of in Hok.
  rewrite (proj1 (validate_spec _ body menuValidation_nodup)) in Hok.
  apply concat_map_nil, Hok.
Qed.

(** A valid name or description is stored trimmed and escaped. *)
Lemma get_validated_text (body : obj) :
  errors_of body = [] ->
  get (fst (validate menuValidation body)) "name" = Some (clean_text (get body "name")) /\
  get (fst (validate menuValidation body)) "description" = Some (clean_text (get body "description")).
Proof.
  intros Hok.
  pose proof (valid_rule_errors body name_rule Hok (or_introl eq_refl)) as Hn.
  pose proof (valid_rule_errors body description_rule Hok (or_intror (or_introl eq_refl))) as Hd.
  rewrite !(proj2 (validate_spec _ body menuValidation_nodup)); unfold sanitized; simpl.
  unfold chain_errors in Hn, Hd; simpl field in Hn, Hd.
  split.
  - destruct (get body "name") as [[| | | | l |]|]; try reflexivity.
    cbn -[trim escape is_length_min] in Hn; discriminate Hn.
  - destruct (get body "description") as [[| | | | l |]|]; try reflexivity.
    cbn -[trim escape is_length_min] in Hd; discriminate Hd.
Qed.

Lemma find_app_none {A : Type} (f : A -> bool) (l1 l2 : list A) :
  (forall x, In x l1 -> f x = false) -> find f (app l1 l2) = find f l2.
Proof.
  induction l1 as [|a r IH]; simpl; intros H; [reflexivity|].
  rewrite (H a (or_introl eq_refl)); apply IH; auto.
Qed.

(** C10: a valid create or update copies every property of the body that
    is not one of the seven schema fields into the stored item, which is
    also the response body; an [id] in an update body replaces the id
    taken from the path. *)
Theorem extra_properties_copied (s : store) (body : obj) (k : string) (v : value)
  (Hnd : NoDup (keys body)) (Hok : errors_of body = [])
  (Hk : ~ In k schema_fields) (Hv : get body k = Some v) :
  (exists item, create s body = (app s [item], {| status := 201; rbody := VObj item |}) /\
                get item k = Some v) /\
  (forall seg index, find_index (parse_int seg) s = Some index ->
     exists item, update s seg body =
                    (replace_at s index item, {| status := 200; rbody := VObj item |}) /\
                  get item k = Some v /\
                  (forall vid, get body "id" = Some vid -> get item "id" = Some vid)).
Proof.
  assert (Hndb : NoDup (keys (fst (validate menuValidation body))))
    by (apply nodup_validate, Hnd).
  assert (Hne : forall f, In f schema_fields -> k <> f) by (intros f Hf ->; contradiction).
  assert (Hkb : get (fst (validate menuValidation body)) k = Some v).
  { rewrite get_validated_plain; [exact Hv| |]; apply Hne; simpl; tauto. }
  split.
  - rewrite create_valid by exact Hok; eexists; split; [reflexivity|].
    rewrite get_set_ne by (apply not_eq_sym, Hne; simpl; tauto).
    rewrite get_spread by exact Hndb; rewrite Hkb; reflexivity.
  - intros seg index Hi; rewrite (update_valid s seg body index Hok Hi).
    eexists; split; [reflexivity|]; split.
    + rewrite get_spread by exact Hndb; rewrite Hkb; reflexivity.
    + intros vid Hid; rewrite get_spread by exact Hndb.
      rewrite get_validated_plain by discriminate; rewrite Hid; reflexivity.
Qed.

Lemma extra_properties_copied_witness :
  exists item, create menuItems (("spicy", VBool true) :: veggie_wrap) =
                 (app menuItems [item], {| status := 201; rbody := VObj item |}) /\
               get item "spicy" = Some (VBool true).
Proof.
  refine (proj1 (extra_properties_copied menuItems (("spicy", VBool true) :: veggie_wrap)
                   "spicy" (VBool true) _ _ _ _)).
  - simpl; repeat constructor; simpl; intuition discriminate.
  - vm_compute; reflexivity.
  - simpl; intuition discriminate.
  - reflexivity.
Defined.

(** C7 (amended): on a store whose ids are all safe integers (integers of
    absolute value at most 2^53 - 1, where JS computes the maximum plus one
    exactly), creating from a
    valid payload P without an [id] property and then getting the returned
    id yields the created item: it has that id, the name and description of
    P trimmed and escaped, [available] from P or true, and every other
    property of P unchanged. *)
Lemma safe_int_ids_numbers (s : store) :
  safe_int_ids s -> forall i, In i s -> exists m e, get i "id" = Some (VNum (Fin m e)).
Proof.
  intros H i Hi; destruct (H i Hi) as [m [Hm _]]; exists m, 0%Z; exact Hm.
Qed.

Lemma menuItems_safe_ids : safe_int_ids menuItems.
Proof.
  intros i Hi; simpl in Hi.
  repeat (destruct Hi as [<-|Hi]; [eexists; split; [reflexivity|apply Z.leb_le; reflexivity]|]).
  destruct Hi.
Qed.

Theorem create_then_get (s : store) (P : obj)
  (Hnd : NoDup (keys P)) (Hok : errors_of P = []) (Hnoid : get P "id" = None)
  (Hsafe : safe_int_ids s) :
  exists item,
    create s P = (app s [item], {| status := 201; rbody := VObj item |}) /\
    get item "id" = Some (next_id s) /\
    (forall seg, VNum (parse_int seg) = next_id s ->
       get_item (app s [item]) seg = (app s [item], {| status := 200; rbody := VObj item |})) /\
    get item "name" = Some (clean_text (get P "name")) /\
    get item "description" = Some (clean_text (get P "description")) /\
    get item "available" = Some (match get P "available" with Some v => v | None => VBool true end) /\
    (forall k, ~ In k ["id"; "name"; "description"; "available"] -> get item k = get P k).
Proof.
  pose proof (safe_int_ids_numbers s Hsafe) as Hids.
  set (b := fst (validate menuValidation P)).
  assert (Hndb : NoDup (keys b)) by (apply nodup_validate, Hnd).
  destruct (get_validated_text P Hok) as [Hname Hdesc]; fold b in Hname, Hdesc.
  assert (Hplain : forall k, k <> "name" -> k <> "description" -> get b k = get P k)
    by (intros k H1 H2; apply get_validated_plain; assumption).
  rewrite create_valid by exact Hok; fold b.
  set (item := set (spread [("id", next_id s)] b) "available"
                   (match get b "available" with Some v => v | None => VBool true end)).
  assert (Hid : get item "id" = Some (next_id s)).
  { unfold item; rewrite get_set_ne by discriminate.
    rewrite get_spread by exact Hndb; rewrite Hplain, Hnoid by discriminate; reflexivity. }
  exists item; split; [reflexivity|]; split; [exact Hid|]; split; [|split; [|split; [|split]]].
  - intros seg Hseg.
    destruct (next_id_fresh s Hids) as [m [e [Hn Hfresh]]].
    rewrite Hn in Hseg; injection Hseg as Hseg.
    unfold get_item; rewrite Hseg, find_app_none by exact Hfresh; simpl.
    unfold id_matches; rewrite Hid, Hn.
    unfold num_eqb; rewrite (proj2 (Qeq_bool_iff _ _) (Qeq_refl _)); reflexivity.
  - unfold item; rewrite get_set_ne by discriminate.
    rewrite get_spread by exact Hndb; rewrite Hname; reflexivity.
  - unfold item; rewrite get_set_ne by discriminate.
    rewrite get_spread by exact Hndb; rewrite Hdesc; reflexivity.
  - unfold item; rewrite get_set_eq, Hplain by discriminate; reflexivity.
  - intros k Hk; unfold item.
    rewrite get_set_ne by (intro Heq; subst; apply Hk; simpl; tauto).
    rewrite get_spread by exact Hndb.
    rewrite Hplain by (intros ->; apply Hk; simpl; tauto).
    destruct (get P k) eqn:Ek; [reflexivity|].
    simpl; destruct (String.eqb k "id") eqn:E; [|reflexivity].
    apply String.eqb_eq in E; subst k; exfalso; apply Hk; simpl; tauto.
Qed.

Lemma create_then_get_witness :
  exists item,
    create menuItems veggie_wrap = (app menuItems [item], {| status := 201; rbody := VObj item |}) /\
    get_item (app menuItems [item]) "9" = (app menuItems [item], {| status := 200; rbody := VObj item |}).
Proof.
  assert (Hnd : NoDup (keys veggie_wrap)) by (simpl; repeat constructor; simpl; intuition discriminate).
  destruct (create_then_get menuItems veggie_wrap Hnd ltac:(vm_compute; reflexivity) eq_refl menuItems_safe_ids)
    as [item [Hc [_ [Hg _]]]].
  exists item; split; [exact Hc|]; apply Hg; reflexivity.
Defined.
(** ** Positions in the store *)

Lemma find_index_split (id : num) (pre post : store) (x : obj) :
  (forall i, In i pre -> id_matches id i = false) -> id_matches id x = true ->
  find_index id (app pre (x :: post)) = Some (length pre).
Proof.
  induction pre as [|i r IH]; simpl; intros Hpre Hx; [rewrite Hx; reflexivity|].
  rewrite (Hpre i (or_introl eq_refl)), IH by auto; reflexivity.
Qed.

Lemma remove_at_split (pre post : store) (x : obj) :
  remove_at (app pre (x :: post)) (length pre) = app pre post.
Proof.
  induction pre as [|i r IH]; simpl; [reflexivity|]; rewrite IH; reflexivity.
Qed.

Lemma replace_at_split (pre post : store) (x y : obj) :
  replace_at (app pre (x :: post)) (length pre) y = app pre (y :: post).
Proof.
  induction pre as [|i r IH]; simpl; [reflexivity|]; rewrite IH; reflexivity.
Qed.

Lemma find_split {A : Type} (f : A -> bool) (pre post : list A) (x : A) :
  (forall i, In i pre -> f i = false) -> f x = true -> find f (app pre (x :: post)) = Some x.
Proof.
  intros Hpre Hx; rewrite find_app_none by exact Hpre; simpl; rewrite Hx; reflexivity.
Qed.

Lemma num_eqb_fin_refl (m e : Z) : num_eqb (Fin m e) (Fin m e) = true.
Proof.
  unfold num_eqb; apply Qeq_bool_iff, Qeq_refl.
Qed.

Lemma id_matches_fin (id : num) (i : obj) :
  id_matches id i = true -> exists m e, id = Fin m e.
Proof.
  unfold id_matches; destruct (get i "id") as [[| | [m e|] | | |]|]; try discriminate.
  destruct id as [m' e'|]; [eauto|discriminate].
Qed.

(** X1: DELETE removes the first item whose id equals the parsed segment
    and nothing else, and answers 200 with the confirmation message. *)
Theorem delete_removes_first_match (seg : string) (pre post : store) (x : obj)
  (Hpre : forall i, In i pre -> id_matches (parse_int seg) i = false)
  (Hx : id_matches (parse_int seg) x = true) :
  delete (app pre (x :: post)) seg = (app pre post, deleted_response).
Proof.
  unfold delete; rewrite find_index_split by assumption.
  rewrite remove_at_split; reflexivity.
Qed.

Lemma delete_removes_first_match_witness :
  delete menuItems "3" =
    (app (firstn 2 menuItems) (skipn 3 menuItems), deleted_response).
Proof.
  exact (delete_removes_first_match "3" (firstn 2 menuItems) (skipn 3 menuItems)
           (nth 2 menuItems []) ltac:(intros i Hi; simpl in Hi;
                                      repeat (destruct Hi as [<-|Hi]; [reflexivity|]); destruct Hi)
           eq_refl).
Defined.

(** X2: when exactly one stored item has the id, a successful DELETE
    leaves no item with it: a repeated DELETE, a GET and a valid PUT of the
    same segment then answer 404. *)
Theorem delete_then_not_found (seg : string) (pre post : store) (x : obj)
  (Hx : id_matches (parse_int seg) x = true)
  (Hothers : forall i, In i (app pre post) -> id_matches (parse_int seg) i = false) :
  let s' := fst (delete (app pre (x :: post)) seg) in
  s' = app pre post /\
  delete s' seg = (s', not_found) /\ get_item s' seg = (s', not_found) /\
  (forall body, errors_of body = [] -> update s' seg body = (s', not_found)).
Proof.
  assert (Hpre : forall i, In i pre -> id_matches (parse_int seg) i = false)
    by (intros i Hi; apply Hothers, in_or_app; left; exact Hi).
  assert (Hdel : delete (app pre (x :: post)) seg = (app pre post, deleted_response)).
  { unfold delete; rewrite find_index_split by assumption.
    rewrite remove_at_split; reflexivity. }
  cbv zeta; rewrite Hdel; simpl fst.
  destruct (routes_absent (app pre post) seg Hothers) as [Hg [Hd Hu]].
  split; [reflexivity|]; split; [exact Hd|]; split; [exact Hg|exact Hu].
Qed.

Lemma delete_then_not_found_witness :
  delete (fst (delete menuItems "3")) "3" = (fst (delete menuItems "3"), not_found).
Proof.
  refine (proj1 (proj2 (delete_then_not_found "3" (firstn 2 menuItems) (skipn 3 menuItems)
                          (nth 2 menuItems []) eq_refl _))).
  intros i Hi; simpl in Hi.
  repeat (destruct Hi as [<-|Hi]; [reflexivity|]); destruct Hi.
Defined.

(** The item a valid PUT stores. *)
Lemma update_split (s : store) (seg : string) (body : obj) (pre post : store) (x : obj) :
  errors_of body = [] -> s = app pre (x :: post) ->
  (forall i, In i pre -> id_matches (parse_int seg) i = false) ->
  id_matches (parse_int seg) x = true ->
  update s seg body =
    (let u := spread [("id", VNum (parse_int seg))] (fst (validate menuValidation body)) in
     (app pre (u :: post), {| status := 200; rbody := VObj u |})).
Proof.
  intros Hok -> Hpre Hx.
  rewrite (update_valid _ seg body (length pre) Hok) by (apply find_index_split; assumption).
  cbv zeta; rewrite replace_at_split; reflexivity.
Qed.

(** X3: a valid PUT replaces the first item whose id equals the parsed
    segment by [{id, ...sanitized body}] and keeps every other item in
    place; the store keeps its length. *)
Theorem update_replaces_first_match (seg : string) (body : obj) (pre post : store) (x : obj)
  (Hok : errors_of body = [])
  (Hpre : forall i, In i pre -> id_matches (parse_int seg) i = false)
  (Hx : id_matches (parse_int seg) x = true) :
  exists u, update (app pre (x :: post)) seg body = (app pre (u :: post), {| status := 200; rbody := VObj u |}) /\
            u = spread [("id", VNum (parse_int seg))] (fst (validate menuValidation body)) /\
            length (app pre (u :: post)) = length (app pre (x :: post)).
Proof.
  rewrite (update_split _ seg body pre post x Hok eq_refl Hpre Hx).
  eexists; split; [reflexivity|]; split; [reflexivity|].
  rewrite !length_app; reflexivity.
Qed.

Lemma update_replaces_first_match_witness :
  exists u, update menuItems "2" veggie_wrap =
              (app (firstn 1 menuItems) (u :: skipn 2 menuItems), {| status := 200; rbody := VObj u |}).
Proof.
  destruct (update_replaces_first_match "2" veggie_wrap (firstn 1 menuItems) (skipn 2 menuItems)
              (nth 1 menuItems []) ltac:(vm_compute; reflexivity)
              ltac:(intros i [<-|[]]; reflexivity) eq_refl) as [u [Hu _]].
  exists u; exact Hu.
Defined.

(** X4: after a valid PUT whose body has no [id], a GET of the same path
    answers 200 with the record just stored. *)
Theorem update_then_get (seg : string) (body : obj) (pre post : store) (x : obj)
  (Hnd : NoDup (keys body)) (Hok : errors_of body = []) (Hnoid : get body "id" = None)
  (Hpre : forall i, In i pre -> id_matches (parse_int seg) i = false)
  (Hx : id_matches (parse_int seg) x = true) :
  exists u, update (app pre (x :: post)) seg body = (app pre (u :: post), {| status := 200; rbody := VObj u |}) /\
            get_item (app pre (u :: post)) seg = (app pre (u :: post), {| status := 200; rbody := VObj u |}).
Proof.
  rewrite (update_split _ seg body pre post x Hok eq_refl Hpre Hx); cbv zeta.
  set (u := spread [("id", VNum (parse_int seg))] (fst (validate menuValidation body))).
  exists u; split; [reflexivity|].
  destruct (id_matches_fin _ _ Hx) as [m [e Hid]].
  assert (Hu : id_matches (parse_int seg) u = true).
  { unfold id_matches, u; rewrite get_spread by (apply nodup_validate, Hnd).
    rewrite get_validated_plain, Hnoid by discriminate; simpl.
    rewrite Hid; apply num_eqb_fin_refl. }
  unfold get_item; rewrite find_split by assumption; reflexivity.
Qed.

Lemma update_then_get_witness :
  exists u, update menuItems "2" veggie_wrap =
              (app (firstn 1 menuItems) (u :: skipn 2 menuItems), {| status := 200; rbody := VObj u |}) /\
            get_item (app (firstn 1 menuItems) (u :: skipn 2 menuItems)) "2" =
              (app (firstn 1 menuItems) (u :: skipn 2 menuItems), {| status := 200; rbody := VObj u |}).
Proof.
  apply (update_then_get "2" veggie_wrap (firstn 1 menuItems) (skipn 2 menuItems) (nth 1 menuItems [])).
  - simpl; repeat constructor; simpl; intuition discriminate.
  - vm_compute; reflexivity.
  - reflexivity.
  - intros i [<-|[]]; reflexivity.
  - reflexivity.
Defined.

(** The item a valid POST appends. *)
Lemma create_item (s : store) (body : obj) :
  NoDup (keys body) -> errors_of body = [] -> get body "id" = None ->
  exists item, create s body = (app s [item], {| status := 201; rbody := VObj item |}) /\
               get item "id" = Some (next_id s).
Proof.
  intros Hnd Hok Hnoid; rewrite create_valid by exact Hok; cbv zeta.
  eexists; split; [reflexivity|].
  rewrite get_set_ne by discriminate.
  rewrite get_spread by (apply nodup_validate, Hnd).
  rewrite get_validated_plain, Hnoid by discriminate; reflexivity.
Qed.

Lemma num_eqb_trans_false (a b c : num) :
  num_eqb a b = true -> num_eqb c b = false -> num_eqb c a = false.
Proof.
  destruct a as [ma ea|], b as [mb eb|], c as [mc ec|]; simpl; try discriminate; try reflexivity.
  intros Hab Hcb; apply not_true_iff_false; intros Hca.
  apply Qeq_bool_iff in Hab, Hca; apply not_true_iff_false in Hcb; apply Hcb.
  apply Qeq_bool_iff; rewrite Hca; exact Hab.
Qed.

(** X5: on a store whose ids are all safe integers (absolute value at most
    2^53 - 1, so the new id is computed exactly), a valid POST without an
    [id] followed by a DELETE of the assigned id gives back the store as
    it was before the POST. *)
Theorem create_then_delete (s : store) (body : obj)
  (Hnd : NoDup (keys body)) (Hok : errors_of body = []) (Hnoid : get body "id" = None)
  (Hsafe : safe_int_ids s) :
  exists m e, next_id s = VNum (Fin m e) /\
    forall seg, num_eqb (parse_int seg) (Fin m e) = true ->
      delete (fst (create s body)) seg = (s, deleted_response).
Proof.
  pose proof (safe_int_ids_numbers s Hsafe) as Hids.
  destruct (next_id_fresh s Hids) as [m [e [Hn Hfresh]]].
  destruct (create_item s body Hnd Hok Hnoid) as [item [Hc Hid]].
  exists m, e; split; [exact Hn|]; intros seg Hseg.
  rewrite Hc; simpl fst.
  unfold delete; rewrite find_index_split.
  - rewrite remove_at_split, app_nil_r; reflexivity.
  - intros i Hi; specialize (Hfresh i Hi); unfold id_matches in *.
    destruct (get i "id") as [[| | n | | |]|]; try reflexivity.
    exact (num_eqb_trans_false _ _ _ Hseg Hfresh).
  - unfold id_matches; rewrite Hid, Hn; simpl.
    destruct (parse_int seg) as [a b|]; [|discriminate].
    unfold num_eqb in *; apply Qeq_bool_iff in Hseg; apply Qeq_bool_iff; symmetry; exact Hseg.
Qed.

Lemma create_then_delete_witness :
  delete (fst (create menuItems veggie_wrap)) "9" = (menuItems, deleted_response).
Proof.
  destruct (create_then_delete menuItems veggie_wrap
              ltac:(simpl; repeat constructor; simpl; intuition discriminate)
              ltac:(vm_compute; reflexivity) eq_refl menuItems_safe_ids) as [m [e [Hn Hdel]]].
  apply Hdel; vm_compute in Hn; injection Hn as <- <-; reflexivity.
Defined.

Lemma fold_max_in (ns : list num) :
  forall n0, let r := fold_left (fun acc n => if num_ltb acc n then n else acc) ns n0 in
             r = n0 \/ In r ns.
Proof.
  induction ns as [|n r IH]; intros n0; cbn [fold_left]; [left; reflexivity|].
  destruct (num_ltb n0 n).
  - destruct (IH n) as [->|H]; right; [left; reflexivity | right; exact H].
  - destruct (IH n0) as [->|H]; [left; reflexivity | right; right; exact H].
Qed.

(** X6: on a non-empty store whose ids are all safe integers (absolute
    value at most 2^53 - 1, where [Math.max(...ids) + 1] is exact), the id a POST
    assigns is the largest stored id plus one: it exceeds every stored id
    by at least one, and one stored id by exactly one. *)
Theorem next_id_max_plus_one (s : store) (Hne : s <> [])
  (Hsafe : safe_int_ids s) :
  exists m e, next_id s = VNum (Fin m e) /\
    (forall i a b, In i s -> get i "id" = Some (VNum (Fin a b)) -> (q_of a b + 1 <= q_of m e)%Q) /\
    (exists i a b, In i s /\ get i "id" = Some (VNum (Fin a b)) /\ (q_of a b + 1 == q_of m e)%Q).
Proof.
  pose proof (safe_int_ids_numbers s Hsafe) as Hids.
  destruct s as [|i0 r]; [contradiction|].
  destruct (Hids i0 (or_introl eq_refl)) as [m0 [e0 Hi]].
  set (ns := map to_number (map (fun j => get j "id") r)).
  assert (Hns : forall n, In n ns -> exists m e, n = Fin m e).
  { intros n Hn; unfold ns in Hn; rewrite map_map in Hn; apply in_map_iff in Hn.
    destruct Hn as [j [<- Hj]].
    destruct (Hids j (or_intror Hj)) as [a [b Hj']]; rewrite Hj'; exists a, b; reflexivity. }
  assert (Hnan : existsb is_nan ns = false).
  { apply not_true_iff_false; intros Hx; apply existsb_exists in Hx.
    destruct Hx as [n [Hn Hnn]]; destruct (Hns n Hn) as [a [b ->]]; discriminate. }
  destruct (fold_max_fin ns m0 e0 Hns) as [m [e [Hf [H0 Hall]]]].
  destruct (num_add1_fin m e) as [m' [e' Ha]].
  assert (Hq : (qv (Fin m' e') == qv (Fin m e) + 1)%Q) by (rewrite <- Ha; apply qv_add1).
  simpl qv in Hq.
  exists m', e'; split; [|split].
  - unfold next_id, math_max; rewrite Hi; simpl to_number.
    fold ns; rewrite Hnan; simpl; rewrite Hf, Ha; reflexivity.
  - intros j a b Hj Hjid.
    assert (Hle : (qv (Fin a b) <= qv (Fin m e))%Q).
    { destruct Hj as [<-|Hj].
      - rewrite Hi in Hjid; injection Hjid as <- <-; exact H0.
      - apply Hall; unfold ns; rewrite map_map; apply in_map_iff; exists j; rewrite Hjid; auto. }
    simpl in Hle; rewrite Hq; apply Qplus_le_l; exact Hle.
  - destruct (fold_max_in ns (Fin m0 e0)) as [Hr|Hr]; cbv zeta in Hr; rewrite Hf in Hr.
    + injection Hr as -> ->; exists i0, m0, e0; split; [left; reflexivity|]; split; [exact Hi|].
      rewrite Hq; reflexivity.
    + unfold ns in Hr; rewrite map_map in Hr; apply in_map_iff in Hr.
      destruct Hr as [j [Hj1 Hj]].
      destruct (Hids j (or_intror Hj)) as [a [b Hj']].
      rewrite Hj' in Hj1; simpl in Hj1; injection Hj1 as -> ->.
      exists j, m, e; split; [right; exact Hj|]; split; [exact Hj'|].
      rewrite Hq; reflexivity.
Qed.

Lemma next_id_max_plus_one_witness :
  exists m e, next_id menuItems = VNum (Fin m e) /\
    (forall i a b, In i menuItems -> get i "id" = Some (VNum (Fin a b)) -> (q_of a b + 1 <= q_of m e)%Q) /\
    (exists i a b, In i menuItems /\ get i "id" = Some (VNum (Fin a b)) /\ (q_of a b + 1 == q_of m e)%Q).
Proof.
  apply next_id_max_plus_one; [discriminate|exact menuItems_safe_ids].
Defined.

(** X7: once a stored id is not a number ([Number(id)] is NaN), every
    valid POST without an [id] stores its item with id NaN, which no
    [parseInt] result equals: GET, PUT and DELETE can never reach it. *)
Theorem nan_id_spreads (s : store) (body : obj)
  (Hnd : NoDup (keys body)) (Hok : errors_of body = []) (Hnoid : get body "id" = None)
  (Hnan : exists i, In i s /\ to_number (get i "id") = NaN) :
  exists item, create s body = (app s [item], {| status := 201; rbody := VObj item |}) /\
               get item "id" = Some (VNum NaN) /\ forall n, id_matches n item = false.
Proof.
  assert (Hn : next_id s = VNum NaN).
  { destruct s as [|i0 r]; [destruct Hnan as [i [[] _]]|].
    destruct Hnan as [i [Hi Hi']]; unfold next_id, math_max.
    destruct Hi as [<-|Hi].
    - rewrite Hi'; reflexivity.
    - replace (existsb is_nan (map to_number (map (fun j => get j "id") r))) with true.
      + rewrite orb_true_r; reflexivity.
      + symmetry; apply existsb_exists; exists NaN; split; [|reflexivity].
        rewrite map_map; rewrite <- Hi'; apply in_map with (f := fun j => to_number (get j "id")); exact Hi. }
  destruct (create_item s body Hnd Hok Hnoid) as [item [Hc Hid]].
  exists item; split; [exact Hc|]; rewrite Hid, Hn; split; [reflexivity|].
  intros n; unfold id_matches; rewrite Hid, Hn; reflexivity.
Qed.

Lemma nan_id_spreads_witness :
  exists item, create (app menuItems [[("id", VStr "abc")]]) veggie_wrap =
                 (app (app menuItems [[("id", VStr "abc")]]) [item], {| status := 201; rbody := VObj item |}) /\
               get item "id" = Some (VNum NaN) /\ forall n, id_matches n item = false.
Proof.
  apply nan_id_spreads.
  - simpl; repeat constructor; simpl; intuition discriminate.
  - vm_compute; reflexivity.
  - reflexivity.
  - exists [("id", VStr "abc")]; split; [apply in_or_app; right; left; reflexivity | vm_compute; reflexivity].
Defined.

(** X8: the price and category rules check array values element by
    element, so an empty array passes both and is kept as it is: such a
    body is valid as soon as the other four rules pass. *)
Theorem empty_arrays_pass (body : obj)
  (Hp : get body "price" = Some (VArr [])) (Hc : get body "category" = Some (VArr [])) :
  errors_of body =
    concat (map (chain_errors body) [name_rule; description_rule; ingredients_rule; available_rule]) /\
  get (fst (validate menuValidation body)) "price" = Some (VArr []) /\
  get (fst (validate menuValidation body)) "category" = Some (VArr []).
Proof.
  split; [|split].
  - unfold errors_of; rewrite (proj1 (validate_spec _ body menuValidation_nodup)).
    unfold menuValidation; cbn [map concat].
    replace (chain_errors body price_rule) with (@nil verror)
      by (unfold chain_errors; simpl field; rewrite Hp; reflexivity).
    replace (chain_errors body category_rule) with (@nil verror)
      by (unfold chain_errors; simpl field; rewrite Hc; reflexivity).
    rewrite !app_nil_l, !app_nil_r; reflexivity.
  - rewrite get_validated_plain by discriminate; exact Hp.
  - rewrite get_validated_plain by discriminate; exact Hc.
Qed.

Lemma empty_arrays_pass_witness :
  errors_of (set (set veggie_wrap "price" (VArr [])) "category" (VArr [])) = [] /\
  get (fst (validate menuValidation (set (set veggie_wrap "price" (VArr [])) "category" (VArr []))))
      "price" = Some (VArr []).
Proof.
  destruct (empty_arrays_pass (set (set veggie_wrap "price" (VArr [])) "category" (VArr []))
              eq_refl eq_refl) as [He [Hp _]].
  split; [rewrite He; vm_compute; reflexivity | exact Hp].
Defined.

(** ** Escaping and the stored text *)

Lemma list_ascii_of_string_append (a b : string) :
  list_ascii_of_string (a ++ b) = app (list_ascii_of_string a) (list_ascii_of_string b).
Proof.
  induction a as [|c r IH]; simpl; [reflexivity|]; rewrite IH; reflexivity.
Qed.

Lemma markup_free_append (a b : string) :
  markup_free (a ++ b) = markup_free a && markup_free b.
Proof.
  unfold markup_free; rewrite list_ascii_of_string_append, forallb_app; reflexivity.
Qed.

Lemma length_append (a b : string) : String.length (a ++ b) = (String.length a + String.length b)%nat.
Proof.
  induction a as [|c r IH]; simpl; [reflexivity|]; rewrite IH; reflexivity.
Qed.

Lemma escape_char_ok (c : ascii) :
  markup_free (escape_char c) && Nat.leb 1 (String.length (escape_char c)) = true.
Proof.
  destruct c as [[] [] [] [] [] [] [] []]; vm_compute; reflexivity.
Qed.

(** [escape] leaves none of the characters it replaces except [&], and
    never shortens a string. *)
Lemma escape_markup_free (s : string) :
  markup_free (escape s) = true /\ (String.length s <= String.length (escape s))%nat.
Proof.
  induction s as [|c r [IH1 IH2]]; simpl; [split; [reflexivity | lia]|].
  pose proof (escape_char_ok c) as H; apply andb_true_iff in H; destruct H as [H1 H2].
  apply Nat.leb_le in H2.
  rewrite markup_free_append, H1, IH1, length_append; split; [reflexivity | lia].
Qed.

Lemma text_chain_length (c : chain) (k : nat) (m1 m2 : string) (v : option value) :
  optional c = false ->
  items c = [Sanitizer trim; Custom is_string m1; Standard (is_length_min k) m2; Sanitizer escape] ->
  snd (run_items c v) = [] -> (k <= String.length (trim (ev_to_string v)))%nat.
Proof.
  intros Ho Hi; unfold run_items; rewrite Hi.
  destruct v as [[| | | | l |]|]; try rewrite Ho;
    cbn -[trim escape is_length_min ev_to_string];
    try discriminate;
    destruct (is_length_min k _) eqn:E; simpl; try discriminate;
    intros _; apply Nat.leb_le; exact E.
Qed.

(** The name and description of a valid body, as sanitized. *)
Lemma valid_text_fields (body : obj) :
  errors_of body = [] ->
  (exists n, get (fst (validate menuValidation body)) "name" = Some (VStr n) /\
             (3 <= String.length n)%nat /\ markup_free n = true) /\
  (exists d, get (fst (validate menuValidation body)) "description" = Some (VStr d) /\
             (10 <= String.length d)%nat /\ markup_free d = true).
Proof.
  intros Hok; destruct (get_validated_text body Hok) as [Hn Hd].
  pose proof (valid_rule_errors body name_rule Hok (or_introl eq_refl)) as En.
  pose proof (valid_rule_errors body description_rule Hok (or_intror (or_introl eq_refl))) as Ed.
  apply (text_chain_length name_rule 3 _ _ _ eq_refl eq_refl) in En.
  apply (text_chain_length description_rule 10 _ _ _ eq_refl eq_refl) in Ed.
  simpl field in En, Ed; unfold clean_text in Hn, Hd.
  split; eexists; (split; [eassumption|]);
    (split; [eapply Nat.le_trans; [eassumption | apply escape_markup_free] | apply escape_markup_free]).
Qed.

(** ** Stores the server goes through *)

Lemma well_formed_itemb_spec (i : obj) : well_formed_itemb i = true -> well_formed_item i.
Proof.
  unfold well_formed_itemb, well_formed_item; intros H.
  apply andb_true_iff in H as [H Hg]; apply andb_true_iff in H as [H Hd];
    apply andb_true_iff in H as [Hi Hn].
  destruct (get i "id"); [|discriminate].
  destruct (get i "name") as [[| | | n | |]|]; try discriminate.
  destruct (get i "description") as [[| | | d | |]|]; try discriminate.
  destruct (get i "ingredients") as [[| | | | [|x l] |]|]; try discriminate.
  apply andb_true_iff in Hn as [Hn1 Hn2]; apply andb_true_iff in Hd as [Hd1 Hd2].
  apply Nat.leb_le in Hn1, Hd1.
  split; [discriminate|]; split; [exists n; auto|]; split; [exists d; auto|exists x, l; reflexivity].
Qed.

Lemma well_formed_spread (t : obj) (body : obj) :
  NoDup (keys body) -> errors_of body = [] -> get t "id" <> None ->
  well_formed_item (spread t (fst (validate menuValidation body))).
Proof.
  intros Hnd Hok Ht.
  assert (Hndb : NoDup (keys (fst (validate menuValidation body)))) by (apply nodup_validate, Hnd).
  destruct (valid_text_fields body Hok) as [[n [Hn Hn']] [d [Hd Hd']]].
  pose proof (valid_rule_errors body ingredients_rule Hok
                (or_intror (or_intror (or_intror (or_intror (or_introl eq_refl)))))) as Hi.
  unfold chain_errors in Hi; simpl field in Hi.
  assert (Hing : exists x l, get body "ingredients" = Some (VArr (x :: l))).
  { destruct (get body "ingredients") as [[| | | | [|x l] |]|]; try discriminate; eauto. }
  destruct Hing as [x [l Hing]].
  unfold well_formed_item; rewrite !get_spread by exact Hndb.
  rewrite Hn, Hd, (get_validated_plain body "ingredients"), Hing by discriminate.
  split; [destruct (get (fst (validate menuValidation body)) "id"); [discriminate | exact Ht]|].
  split; [exists n; auto|]; split; [exists d; auto|exists x, l; reflexivity].
Qed.

Lemma well_formed_set (o : obj) (k : string) (v : value) :
  ~ In k ["id"; "name"; "description"; "ingredients"] ->
  well_formed_item o -> well_formed_item (set o k v).
Proof.
  intros Hk; unfold well_formed_item.
  rewrite !get_set_ne by (intros ->; apply Hk; simpl; tauto); tauto.
Qed.

Lemma in_replace_at (s : store) (n : nat) (x i : obj) : In i (replace_at s n x) -> i = x \/ In i s.
Proof.
  revert n; induction s as [|j r IH]; intros [|n]; simpl; try tauto.
  - intros [<-|H]; tauto.
  - intros [<-|H]; [tauto|]; destruct (IH n H); tauto.
Qed.

Lemma in_remove_at (s : store) (n : nat) (i : obj) : In i (remove_at s n) -> In i s.
Proof.
  revert n; induction s as [|j r IH]; intros [|n]; simpl; try tauto.
  intros [<-|H]; [tauto|]; right; eapply IH; exact H.
Qed.

(** What one request does to the store. *)
Lemma handle_request_store (s : store) (r : request) :
  json_body_ok r ->
  fst (handle_request s r) = s \/
  (exists b, NoDup (keys b) /\ fst (handle_request s r) = fst (create s b)) \/
  (exists seg b, NoDup (keys b) /\ fst (handle_request s r) = fst (update s seg b)) \/
  (exists seg, fst (handle_request s r) = fst (delete s seg)).
Proof.
  unfold json_body_ok, handle_request; destruct (reqbody r) as [|o|]; intros Hb;
    [| |left; reflexivity];
  (destruct (logger_throws _ _); [left; reflexivity|]);
  repeat match goal with
         | |- context [if ?c then _ else _] => destruct c
         | |- context [match ?x with Some _ => _ | None => _ end] => destruct x
         end;
  first [ left; reflexivity
        | left; unfold get_item; destruct (find _ _); reflexivity
        | right; left; eexists; split; [|reflexivity]; first [exact Hb | constructor]
        | right; right; left; do 2 eexists; split; [|reflexivity]; first [exact Hb | constructor]
        | right; right; right; eexists; reflexivity ].
Qed.

Lemma well_formed_create (s : store) (b : obj) :
  NoDup (keys b) -> (forall i, In i s -> well_formed_item i) ->
  forall i, In i (fst (create s b)) -> well_formed_item i.
Proof.
  intros Hnd Hs i Hi.
  destruct (errors_of b) eqn:Hok.
  - rewrite create_valid in Hi by exact Hok; simpl fst in Hi.
    apply in_app_or in Hi as [Hi|[<-|[]]]; [apply Hs, Hi|].
    apply well_formed_set; [simpl; intuition discriminate|].
    apply well_formed_spread; [exact Hnd | exact Hok | discriminate].
  - rewrite create_invalid in Hi by (rewrite Hok; discriminate); apply Hs, Hi.
Qed.

Lemma well_formed_update (s : store) (seg : string) (b : obj) :
  NoDup (keys b) -> (forall i, In i s -> well_formed_item i) ->
  forall i, In i (fst (update s seg b)) -> well_formed_item i.
Proof.
  intros Hnd Hs i Hi.
  destruct (errors_of b) eqn:Hok.
  - destruct (find_index (parse_int seg) s) as [index|] eqn:Hf.
    + rewrite (update_valid s seg b index Hok Hf) in Hi; simpl fst in Hi.
      apply in_replace_at in Hi as [->|Hi]; [|apply Hs, Hi].
      apply well_formed_spread; [exact Hnd | exact Hok | discriminate].
    + unfold update in Hi; unfold errors_of in Hok.
      destruct (validate menuValidation b) as [b' errs]; simpl in Hok; subst errs.
      simpl in Hi; rewrite Hf in Hi; apply Hs, Hi.
  - rewrite update_invalid in Hi by (rewrite Hok; discriminate); apply Hs, Hi.
Qed.

Lemma well_formed_delete (s : store) (seg : string) :
  (forall i, In i s -> well_formed_item i) ->
  forall i, In i (fst (delete s seg)) -> well_formed_item i.
Proof.
  intros Hs i; unfold delete; destruct (find_index _ _); simpl; [|apply Hs].
  intros Hi; apply Hs; eapply in_remove_at; exact Hi.
Qed.

(** X9: every item of every store the server goes through, from the seed
    data by any sequence of requests with JSON object bodies, has an id, a
    string name of at least 3 characters and a string description of at
    least 10, neither containing [<], [>], a quote, [/], a backslash or a
    backquote, and a non-empty ingredients array. *)
Theorem served_items_well_formed (s : store) (Hs : served s) :
  forall i, In i s -> well_formed_item i.
Proof.
  induction Hs as [|s r Hs IH Hb].
  - intros i Hi; apply well_formed_itemb_spec; revert i Hi; apply forallb_forall.
    vm_compute; reflexivity.
  - destruct (handle_request_store s r Hb) as [->|[[b [Hnd ->]]|[[seg [b [Hnd ->]]]|[seg ->]]]].
    + exact IH.
    + apply well_formed_create; assumption.
    + apply well_formed_update; assumption.
    + apply well_formed_delete; assumption.
Qed.

Lemma served_items_well_formed_witness :
  Forall well_formed_item
    (fst (handle_request menuItems
            {| method := "POST"; url := "/api/menu"; pathname := "/api/menu";
               reqbody := JsonBody veggie_wrap |})).
Proof.
  apply Forall_forall, served_items_well_formed; apply served_step; [exact served_seed|].
  simpl; repeat constructor; simpl; intuition discriminate.
Defined.

(** ** Route matching *)

Lemma length_string_of_list_ascii (l : list ascii) :
  String.length (string_of_list_ascii l) = length l.
Proof.
  induction l as [|c r IH]; simpl; [reflexivity|]; rewrite IH; reflexivity.
Qed.

Lemma length_list_ascii_of_string (s : string) :
  length (list_ascii_of_string s) = String.length s.
Proof.
  induction s as [|c r IH]; simpl; [reflexivity|]; rewrite IH; reflexivity.
Qed.

Lemma length_lower_s (p : string) : String.length (lower_s p) = String.length p.
Proof.
  unfold lower_s; rewrite length_string_of_list_ascii, length_map, length_list_ascii_of_string;
    reflexivity.
Qed.

Lemma id_param_long (p raw : string) : id_param p = Some raw -> (10 < String.length p)%nat.
Proof.
  rewrite <- length_list_ascii_of_string; unfold id_param.
  destruct (Nat.lt_ge_cases 10 (length (list_ascii_of_string p))) as [H|H]; [auto|].
  rewrite (skipn_all2 _ H); simpl; destruct (String.eqb _ _); discriminate.
Qed.

Lemma root_match_short (p : string) : root_match p = true -> (String.length p <= 1)%nat.
Proof.
  unfold root_match; intros H; apply orb_true_iff in H as [H|H]; apply String.eqb_eq in H;
    subst; simpl; lia.
Qed.

Lemma list_match_length (p : string) : list_match p = true -> (String.length p <= 10)%nat.
Proof.
  unfold list_match; rewrite <- length_lower_s; intros H; apply orb_true_iff in H as [H|H];
    apply String.eqb_eq in H; rewrite H; simpl; lia.
Qed.

(** A path of the [:id] routes matches neither of the other two. *)
Lemma id_param_excl (p raw : string) :
  id_param p = Some raw -> root_match p = false /\ list_match p = false.
Proof.
  intros H; apply id_param_long in H.
  split; apply not_true_iff_false; intros H'.
  - apply root_match_short in H'; lia.
  - apply list_match_length in H'; lia.
Qed.

Lemma string_of_list_ascii_of_string (s : string) :
  string_of_list_ascii (list_ascii_of_string s) = s.
Proof.
  induction s as [|c r IH]; simpl; [reflexivity|]; rewrite IH; reflexivity.
Qed.

(** [/api/menu/] in any case, a non-empty segment without [/], and an
    optional trailing [/]. *)
Lemma id_param_shape (pre raw tail : string) :
  lower_s pre = "/api/menu/" -> raw <> "" ->
  existsb (Ascii.eqb "/"%char) (list_ascii_of_string raw) = false ->
  tail = "" \/ tail = "/" ->
  id_param (pre ++ raw ++ tail) = Some raw.
Proof.
  intros Hpre Hraw Hnos Htail.
  assert (Hlen : length (list_ascii_of_string pre) = 10%nat).
  { rewrite length_list_ascii_of_string, <- length_lower_s, Hpre; reflexivity. }
  unfold id_param.
  rewrite !list_ascii_of_string_append.
  rewrite firstn_app, Hlen, Nat.sub_diag, firstn_O, app_nil_r, <- Hlen, firstn_all.
  rewrite string_of_list_ascii_of_string, Hpre, String.eqb_refl.
  rewrite skipn_app, Hlen, Nat.sub_diag, skipn_O, <- Hlen, skipn_all, app_nil_l.
  assert (Hne : list_ascii_of_string raw <> []) by (destruct raw; [contradiction | discriminate]).
  assert (Hseg : (match rev (app (list_ascii_of_string raw) (list_ascii_of_string tail)) with
                  | c :: r => if Ascii.eqb c "/"%char then rev r
                              else app (list_ascii_of_string raw) (list_ascii_of_string tail)
                  | [] => app (list_ascii_of_string raw) (list_ascii_of_string tail)
                  end) = list_ascii_of_string raw).
  { destruct Htail as [Ht|Ht]; subst tail; simpl; rewrite ?app_nil_r.
    - destruct (rev (list_ascii_of_string raw)) as [|c r] eqn:E.
      + reflexivity.
      + destruct (Ascii.eqb c "/"%char) eqn:Ec; [|reflexivity].
        exfalso; assert (Hin : In c (list_ascii_of_string raw))
          by (apply in_rev; rewrite E; left; reflexivity).
        assert (Hx : existsb (Ascii.eqb "/"%char) (list_ascii_of_string raw) = true)
          by (apply existsb_exists; exists c; split; [exact Hin|];
              apply Ascii.eqb_eq in Ec; subst c; reflexivity).
        congruence.
    - rewrite rev_app_distr; simpl; rewrite rev_involutive; reflexivity. }
  rewrite Hseg, Hnos.
  destruct (list_ascii_of_string raw) eqn:E; [contradiction|].
  rewrite <- E, string_of_list_ascii_of_string; reflexivity.
Qed.

(** X10: three kinds of request never reach a route and get the error
    handler's 500 [{"error": "Internal Server Error"}] with the store
    unchanged: a body the JSON parser rejects (any method and path); a
    POST or PUT whose [req.body] is undefined, on which [requestLogger]
    throws; and a path of the [:id] routes whose segment is not a valid
    percent-encoding, whatever the method. *)
Theorem error_handler_requests (s : store) (r : request) :
  (reqbody r = BadJson -> handle_request s r = (s, internal_error)) /\
  (reqbody r = Undefined -> method r = "POST" \/ method r = "PUT" ->
   handle_request s r = (s, internal_error)) /\
  (forall raw, reqbody r <> BadJson -> logger_throws (method r) (reqbody r) = false ->
   id_param (pathname r) = Some raw -> decode_param raw = None ->
   handle_request s r = (s, internal_error)).
Proof.
  unfold handle_request; split; [|split].
  - intros ->; reflexivity.
  - intros Hb Hm; rewrite Hb; unfold logger_throws.
    destruct Hm as [Hm|Hm]; rewrite Hm; reflexivity.
  - intros raw Hb Hl Hid Hdec.
    destruct (id_param_excl _ _ Hid) as [Hr Hlm].
    destruct (reqbody r) as [|o|]; [| |contradiction]; rewrite Hl, Hr, Hlm; simpl;
      rewrite Hid, Hdec; reflexivity.
Qed.

Lemma error_handler_requests_witness :
  handle_request menuItems {| method := "GET"; url := "/api/menu/%E0"; pathname := "/api/menu/%E0";
                              reqbody := JsonBody [] |} = (menuItems, internal_error).
Proof.
  apply (proj2 (proj2 (error_handler_requests menuItems
           {| method := "GET"; url := "/api/menu/%E0"; pathname := "/api/menu/%E0";
              reqbody := JsonBody [] |})) "%E0"); try discriminate; reflexivity.
Defined.

(** X11: a request that reaches the routes but that no route handles
    gets the catch-all's 404 [{"error": "Route not found", "path": url}]
    with the store unchanged: a path matching none of [/], [/api/menu] and
    [/api/menu/:id]; a method other than GET and HEAD on [/]; a method
    other than GET, HEAD and POST on [/api/menu] (PUT or DELETE without an
    id); and a method other than GET, HEAD, PUT and DELETE on an id path
    whose segment decodes (POST with an id). *)
Theorem unrouted_requests_not_found (s : store) (r : request)
  (Hb : reqbody r <> BadJson) (Hl : logger_throws (method r) (reqbody r) = false) :
  (root_match (pathname r) = false -> list_match (pathname r) = false ->
   id_param (pathname r) = None -> handle_request s r = (s, route_not_found (url r))) /\
  (root_match (pathname r) = true -> handles_get (method r) = false ->
   handle_request s r = (s, route_not_found (url r))) /\
  (list_match (pathname r) = true -> handles_get (method r) = false -> method r <> "POST" ->
   handle_request s r = (s, route_not_found (url r))) /\
  (forall raw seg, id_param (pathname r) = Some raw -> decode_param raw = Some seg ->
   handles_get (method r) = false -> method r <> "PUT" -> method r <> "DELETE" ->
   handle_request s r = (s, route_not_found (url r))).
Proof.
  assert (Hstart : forall x : store * response,
             match reqbody r with
             | BadJson => (s, internal_error)
             | _ => if logger_throws (method r) (reqbody r) then (s, internal_error) else x
             end = x).
  { intros x; destruct (reqbody r); [rewrite Hl; reflexivity | rewrite Hl; reflexivity | contradiction]. }
  unfold handle_request.
  split; [|split; [|split]].
  - intros Hr Hlm Hid; destruct (reqbody r) as [|o|]; [| |contradiction]; rewrite Hl, Hr, Hlm, Hid;
      reflexivity.
  - intros Hr Hg.
    assert (Hlm : list_match (pathname r) = false)
      by (apply not_true_iff_false; intros H; apply root_match_short in Hr;
          unfold list_match in H; rewrite <- length_lower_s in Hr;
          apply orb_true_iff in H as [H|H]; apply String.eqb_eq in H; rewrite H in Hr; simpl in Hr; lia).
    assert (Hid : id_param (pathname r) = None).
    { destruct (id_param (pathname r)) eqn:E; [|reflexivity].
      apply id_param_excl in E; rewrite Hr in E; destruct E; discriminate. }
    destruct (reqbody r) as [|o|]; [| |contradiction]; rewrite Hl, Hr, Hg, Hlm, Hid; reflexivity.
  - intros Hlm Hg Hp.
    assert (Hid : id_param (pathname r) = None).
    { destruct (id_param (pathname r)) eqn:E; [|reflexivity].
      apply id_param_excl in E; rewrite Hlm in E; destruct E; discriminate. }
    apply String.eqb_neq in Hp.
    destruct (reqbody r) as [|o|]; [| |contradiction]; rewrite Hl, Hg, Hlm, Hid, Hp, !andb_false_r;
      reflexivity.
  - intros raw seg Hid Hdec Hg Hput Hdel.
    destruct (id_param_excl _ _ Hid) as [Hr Hlm].
    apply String.eqb_neq in Hput; apply String.eqb_neq in Hdel.
    destruct (reqbody r) as [|o|]; [| |contradiction]; rewrite Hl, Hr, Hlm, Hid, Hdec, Hg, Hput, Hdel;
      reflexivity.
Qed.

Lemma unrouted_requests_not_found_witness :
  handle_request menuItems {| method := "PATCH"; url := "/api/menu/3?x=1"; pathname := "/api/menu/3";
                              reqbody := JsonBody [] |} =
    (menuItems, route_not_found "/api/menu/3?x=1").
Proof.
  apply (proj2 (proj2 (proj2 (unrouted_requests_not_found menuItems
           {| method := "PATCH"; url := "/api/menu/3?x=1"; pathname := "/api/menu/3";
              reqbody := JsonBody [] |} ltac:(discriminate) eq_refl))) "3" "3");
    try reflexivity; discriminate.
Defined.

(** X12: a path made of [/api/menu/] in any letter case, a non-empty
    segment without [/] and an optional trailing [/] reaches the id
    routes with the percent-decoded segment: GET and HEAD answer as the
    GET handler, PUT as the PUT handler, DELETE as the DELETE handler. *)
Theorem item_paths_dispatch (s : store) (m u pre raw tail seg : string) (b : obj)
  (Hpre : lower_s pre = "/api/menu/") (Hraw : raw <> "")
  (Hnos : existsb (Ascii.eqb "/"%char) (list_ascii_of_string raw) = false)
  (Htail : tail = "" \/ tail = "/") (Hdec : decode_param raw = Some seg) :
  let r := {| method := m; url := u; pathname := pre ++ raw ++ tail; reqbody := JsonBody b |} in
  (handles_get m = true -> handle_request s r = get_item s seg) /\
  (m = "PUT" -> handle_request s r = update s seg b) /\
  (m = "DELETE" -> handle_request s r = delete s seg).
Proof.
  pose proof (id_param_shape pre raw tail Hpre Hraw Hnos Htail) as Hid.
  destruct (id_param_excl _ _ Hid) as [Hr Hlm].
  cbv zeta; unfold handle_request; simpl reqbody; simpl method; simpl pathname.
  unfold logger_throws; rewrite Hr, Hlm, Hid, Hdec; simpl.
  split; [|split].
  - intros ->; reflexivity.
  - intros ->; reflexivity.
  - intros ->; reflexivity.
Qed.

Lemma item_paths_dispatch_witness :
  handle_request menuItems {| method := "GET"; url := "/API/Menu/%33/";
                              pathname := "/API/Menu/" ++ "%33" ++ "/"; reqbody := JsonBody [] |} =
    get_item menuItems "3".
Proof.
  apply (proj1 (item_paths_dispatch menuItems "GET" "/API/Menu/%33/" "/API/Menu/" "%33" "/" "3" []
                  eq_refl ltac:(discriminate) eq_refl ltac:(right; reflexivity) eq_refl)).
  reflexivity.
Defined.

(** X13: [/api/menu] in any letter case, with or without a trailing
    [/], lists the store on GET and HEAD and creates on POST. *)
Theorem list_path_dispatch (s : store) (m u p : string) (b : obj)
  (Hp : lower_s p = "/api/menu" \/ lower_s p = "/api/menu/") :
  let r := {| method := m; url := u; pathname := p; reqbody := JsonBody b |} in
  (handles_get m = true -> handle_request s r = list_items s) /\
  (m = "POST" -> handle_request s r = create s b).
Proof.
  assert (Hlm : list_match p = true)
    by (unfold list_match; destruct Hp as [-> | ->]; reflexivity).
  assert (Hr : root_match p = false).
  { apply not_true_iff_false; intros H; apply root_match_short in H.
    rewrite <- length_lower_s in H; destruct Hp as [E|E]; rewrite E in H; simpl in H; lia. }
  assert (Hid : id_param p = None).
  { destruct (id_param p) eqn:E; [|reflexivity].
    apply id_param_excl in E; rewrite Hlm in E; destruct E; discriminate. }
  cbv zeta; unfold handle_request; simpl reqbody; simpl method; simpl pathname.
  unfold logger_throws; rewrite Hr, Hlm, Hid; simpl.
  split.
  - intros ->; reflexivity.
  - intros ->; reflexivity.
Qed.

Lemma list_path_dispatch_witness :
  handle_request menuItems {| method := "GET"; url := "/API/MENU/"; pathname := "/API/MENU/";
                              reqbody := JsonBody [] |} = list_items menuItems.
Proof.
  apply (proj1 (list_path_dispatch menuItems "GET" "/API/MENU/" "/API/MENU/" []
                  ltac:(right; reflexivity))); reflexivity.
Defined.

(** ** The first version *)

Lemma v1_nodup : NoDup (map field V1.menuValidation).
Proof.
  simpl; repeat constructor; simpl; intuition discriminate.
Qed.

(** Version 1 has no sanitizer: validation leaves the body as it is. *)
Lemma v1_validated_body (body : obj) (k : string) :
  get (fst (validate V1.menuValidation body)) k = get body k.
Proof.
  rewrite (proj2 (validate_spec _ body v1_nodup)); unfold sanitized.
  destruct (find (fun c => String.eqb (field c) k) V1.menuValidation) as [c|] eqn:Ef; [|reflexivity].
  apply find_some in Ef as [Hc _].
  replace (fst (run_items c (get body k))) with (get body k); [destruct (get body k); reflexivity|].
  simpl in Hc; repeat destruct Hc as [<-|Hc];
    try (destruct (get body k) as [x|]; reflexivity); destruct Hc.
Qed.

Lemma v1_valid_defined (body : obj) (k : string) :
  V1.errors_of body = [] -> In k ["name"; "description"; "price"; "category"; "ingredients"] ->
  exists v, get body k = Some v.
Proof.
  intros Hok Hk; unfold V1.errors_of in Hok.
  rewrite (proj1 (validate_spec _ body v1_nodup)) in Hok.
  pose proof (concat_map_nil _ _ Hok) as Hall.
  destruct (get body k) as [v|] eqn:E; [eauto|exfalso].
  simpl in Hk; repeat destruct Hk as [<-|Hk]; try destruct Hk;
    [ specialize (Hall V1.name_rule (or_introl eq_refl))
    | specialize (Hall V1.description_rule (or_intror (or_introl eq_refl)))
    | specialize (Hall V1.price_rule (or_intror (or_intror (or_introl eq_refl))))
    | specialize (Hall V1.category_rule (or_intror (or_intror (or_intror (or_introl eq_refl)))))
    | specialize (Hall V1.ingredients_rule
                    (or_intror (or_intror (or_intror (or_intror (or_introl eq_refl)))))) ];
    unfold chain_errors in Hall; simpl field in Hall; rewrite E in Hall; vm_compute in Hall; discriminate.
Qed.

(** The object a valid version-1 request stores. *)
Lemma v1_item_of (id : value) (body : obj) :
  V1.errors_of body = [] ->
  exists vn vd vp vc vi,
    get body "name" = Some vn /\ get body "description" = Some vd /\ get body "price" = Some vp /\
    get body "category" = Some vc /\ get body "ingredients" = Some vi /\
    V1.item_of id (fst (validate V1.menuValidation body)) =
      [("id", id); ("name", vn); ("description", vd); ("price", vp); ("category", vc);
       ("ingredients", vi);
       ("available", match get body "available" with Some v => v | None => VBool true end)].
Proof.
  intros Hok.
  destruct (v1_valid_defined body "name" Hok ltac:(simpl; tauto)) as [vn Hn].
  destruct (v1_valid_defined body "description" Hok ltac:(simpl; tauto)) as [vd Hd].
  destruct (v1_valid_defined body "price" Hok ltac:(simpl; tauto)) as [vp Hp].
  destruct (v1_valid_defined body "category" Hok ltac:(simpl; tauto)) as [vc Hc].
  destruct (v1_valid_defined body "ingredients" Hok ltac:(simpl; tauto)) as [vi Hi].
  exists vn, vd, vp, vc, vi; repeat split; try assumption.
  unfold V1.item_of, V1.field_of; rewrite !v1_validated_body, Hn, Hd, Hp, Hc, Hi; reflexivity.
Qed.

Lemma v1_create_valid (s : store) (body : obj) :
  V1.errors_of body = [] ->
  V1.create s body =
    (let newItem := V1.item_of (vint (Z.of_nat (length s) + 1)) (fst (validate V1.menuValidation body)) in
     (app s [newItem], V1.Answered {| status := 201; rbody := VObj newItem |})).
Proof.
  unfold V1.create, V1.errors_of; destruct (validate V1.menuValidation body) as [b errs]; simpl.
  intros ->; reflexivity.
Qed.

(** X14: in version 1 a valid POST or PUT stores exactly the seven schema
    properties: the assigned or path id, the five required fields as sent,
    and [available] as sent or true; an [id] or any other property of the
    body is dropped. *)
Theorem v1_writes_schema_only (s : store) (body : obj) (Hok : V1.errors_of body = []) :
  (exists item,
     V1.create s body = (app s [item], V1.Answered {| status := 201; rbody := VObj item |}) /\
     keys item = schema_fields /\ get item "id" = Some (vint (Z.of_nat (length s) + 1)) /\
     (forall k, In k ["name"; "description"; "price"; "category"; "ingredients"] ->
                get item k = get body k) /\
     get item "available" = Some (match get body "available" with Some v => v | None => VBool true end)) /\
  (forall seg index, find_index (parse_int seg) s = Some index ->
   exists u,
     V1.update s seg body = (replace_at s index u, V1.Answered {| status := 200; rbody := VObj u |}) /\
     keys u = schema_fields /\ get u "id" = Some (VNum (parse_int seg)) /\
     (forall k, In k ["name"; "description"; "price"; "category"; "ingredients"] ->
                get u k = get body k) /\
     get u "available" = Some (match get body "available" with Some v => v | None => VBool true end)).
Proof.
  assert (Hshape : forall id, exists it,
             V1.item_of id (fst (validate V1.menuValidation body)) = it /\
             keys it = schema_fields /\ get it "id" = Some id /\
             (forall k, In k ["name"; "description"; "price"; "category"; "ingredients"] ->
                        get it k = get body k) /\
             get it "available" = Some (match get body "available" with Some v => v | None => VBool true end)).
  { intros id; destruct (v1_item_of id body Hok) as [vn [vd [vp [vc [vi [Hn [Hd [Hp [Hc [Hi Heq]]]]]]]]]].
    rewrite Heq; eexists; split; [reflexivity|]; split; [reflexivity|]; split; [reflexivity|]; split.
    - intros k Hk; simpl in Hk; repeat destruct Hk as [<-|Hk]; try destruct Hk; simpl; congruence.
    - reflexivity. }
  split.
  - rewrite v1_create_valid by exact Hok; cbv zeta.
    destruct (Hshape (vint (Z.of_nat (length s) + 1))) as [it [-> H]].
    exists it; split; [reflexivity | exact H].
  - intros seg index Hf.
    unfold V1.update; unfold V1.errors_of in Hok.
    destruct (Hshape (VNum (parse_int seg))) as [it [Hit H]].
    destruct (validate V1.menuValidation body) as [b errs]; simpl in Hok, Hit; subst errs.
    rewrite Hf, Hit; exists it; split; [reflexivity | exact H].
Qed.

Lemma v1_writes_schema_only_witness :
  exists item,
    V1.create V1.menuItems body_with_id =
      (app V1.menuItems [item], V1.Answered {| status := 201; rbody := VObj item |}) /\
    keys item = schema_fields /\ get item "id" = Some (vint 6).
Proof.
  destruct (proj1 (v1_writes_schema_only V1.menuItems body_with_id ltac:(vm_compute; reflexivity)))
    as [item [Hc [Hk [Hid _]]]].
  exists item; split; [exact Hc|]; split; [exact Hk | exact Hid].
Defined.

(** X15: in version 1, when a DELETE removes an item while another stored
    item carries the id equal to the store's former length, the next valid
    POST assigns that id again (length + 1 after the delete), so two items
    share it; from the seed data, deleting any item but the last does it. *)
Theorem v1_delete_then_create_duplicates (seg : string) (pre post : store) (x body : obj)
  (Hpre : forall i, In i pre -> id_matches (parse_int seg) i = false)
  (Hx : id_matches (parse_int seg) x = true)
  (Hy : exists y, In y (app pre post) /\
                  get y "id" = Some (vint (Z.of_nat (length (app pre (x :: post))))))
  (Hok : V1.errors_of body = []) :
  let s1 := fst (delete (app pre (x :: post)) seg) in
  exists item,
    V1.create s1 body = (app s1 [item], V1.Answered {| status := 201; rbody := VObj item |}) /\
    get item "id" = Some (vint (Z.of_nat (length (app pre (x :: post))))) /\
    ~ NoDup (ids (app s1 [item])).
Proof.
  assert (Hdel : fst (delete (app pre (x :: post)) seg) = app pre post).
  { unfold delete; rewrite find_index_split by assumption; rewrite remove_at_split; reflexivity. }
  cbv zeta; rewrite Hdel, v1_create_valid by exact Hok; cbv zeta.
  set (item := V1.item_of (vint (Z.of_nat (length (app pre post)) + 1))
                 (fst (validate V1.menuValidation body))).
  assert (Hid : get item "id" = Some (vint (Z.of_nat (length (app pre (x :: post)))))).
  { unfold item, V1.item_of; simpl; rewrite !length_app; simpl; f_equal; f_equal; lia. }
  exists item; split; [reflexivity|]; split; [exact Hid|].
  intros Hnd; unfold ids in Hnd; rewrite map_app in Hnd; cbn [map] in Hnd.
  apply NoDup_remove_2 in Hnd; rewrite app_nil_r in Hnd; apply Hnd.
  destruct Hy as [y [Hyin Hyid]]; rewrite Hid, <- Hyid.
  apply in_map with (f := fun i => get i "id"); exact Hyin.
Qed.

Lemma v1_delete_then_create_duplicates_witness :
  exists item,
    V1.create (fst (delete V1.menuItems "1")) veggie_wrap =
      (app (fst (delete V1.menuItems "1")) [item], V1.Answered {| status := 201; rbody := VObj item |}) /\
    get item "id" = Some (vint 5) /\
    ~ NoDup (ids (app (fst (delete V1.menuItems "1")) [item])).
Proof.
  apply (v1_delete_then_create_duplicates "1" [] (skipn 1 V1.menuItems) (nth 0 V1.menuItems [])
           veggie_wrap).
  - intros i [].
  - reflexivity.
  - exists (nth 4 V1.menuItems []); split; [simpl; tauto | reflexivity].
  - vm_compute; reflexivity.
Defined.

(** X16: only POST, PUT and DELETE requests can change the store: a
    request with any other method (GET, HEAD, OPTIONS, PATCH, ...) leaves
    it as it was, whatever its path and body. *)
Theorem other_methods_keep_store (s : store) (r : request)
  (Hpost : method r <> "POST") (Hput : method r <> "PUT") (Hdel : method r <> "DELETE") :
  fst (handle_request s r) = s.
Proof.
  apply String.eqb_neq in Hpost, Hput, Hdel.
  unfold handle_request.
  destruct (reqbody r); try reflexivity;
    (destruct (logger_throws _ _); [reflexivity|]);
    rewrite Hput, Hdel, Hpost, ?andb_false_r;
    repeat match goal with
           | |- context [if ?c then _ else _] => destruct c
           | |- context [match ?x with Some _ => _ | None => _ end] => destruct x
           end;
    try reflexivity; unfold get_item; destruct (find _ _); reflexivity.
Qed.

Lemma other_methods_keep_store_witness :
  fst (handle_request menuItems {| method := "PATCH"; url := "/api/menu/1"; pathname := "/api/menu/1";
                                   reqbody := JsonBody veggie_wrap |}) = menuItems.
Proof.
  apply other_methods_keep_store; discriminate.
Defined.
